(** * Operator binding generator of [mxnet.symbol.op]

    A shallow embedding of [_make_atomic_symbol_function]
    (python/mxnet/symbol/op.py).  The Python function does two things:

    - it classifies the arguments the native registry declares for one
      operator (the loop over [range(narg)]), and
    - it writes the text of a Python function and [exec]s it.

    The classification is embedded as the fold [classify].  The generated
    function is embedded by what it does when it is called
    ([generated_call]): Python binds the arguments of the call to the
    parameters of the emitted [def], then the body runs, [variadic_body]
    for the text emitted under [if arr_name:], [keyword_body] for the text
    emitted under [else:].  Both run in a small state-and-exception monad
    whose state holds what the generated code reaches through globals: the
    active attribute scope, the name manager's counters and the requests
    handed to [_symbol_creator].

    The emitted text is Python source, so the parameters of the [def] and
    the variables of its body share one namespace.  The bodies below keep
    that: a declared argument called [k], [v], [keys], [vals] or
    [sym_kwargs] is read back after the body has assigned to the variable
    of that name, and an array argument called [sym_args] is shadowed by
    the body's accumulator.  Whether [exec] accepts the text at all (the
    names must be identifiers, pairwise distinct and distinct from [name],
    [attr], [out] and [kwargs]) is not modelled. *)

From Stdlib Require Import List String Ascii ZArith Bool Arith Lia.
From Stdlib Require Import DecimalString DecimalNat.
Import ListNotations.
Local Open Scope string_scope.
Local Open Scope list_scope.


(** ** Python values *)

(** The values a caller can hand to a generated function, as far as the
    generated code tells them apart: [None], the [_Null] sentinel, instances
    of [SymbolBase], and everything else.  [VWorking x] is the list or dict
    object the generated body itself binds to its variable [x]; it is only
    ever read back when a declared argument has the same name. *)
Inductive value : Type :=
| VNone
| VNull
| VSym (id : nat)
| VInt (z : Z)
| VStr (s : string)
| VAttrs (d : list (string * string))
| VWorking (var : string).

(** [isinstance(v, SymbolBase)] *)
Definition isinstance_SymbolBase (v : value) : bool :=
  match v with VSym _ => true | _ => false end.

(** [v is not None] *)
Definition is_not_None (v : value) : bool :=
  match v with VNone => false | _ => true end.

(** [v is not _Null] *)
Definition is_not_Null (v : value) : bool :=
  match v with VNull => false | _ => true end.

Inductive exn : Type :=
| AssertionError (msg : string)
| TypeError (msg : string)
| NameError (var : string)
| ForeignError (msg : string).

(** ** Strings *)

(** [s.startswith(p)] *)
Definition startswith (p s : string) : bool := String.prefix p s.

(** [s.endswith(p)] *)
Definition endswith (p s : string) : bool :=
  (String.length p <=? String.length s)%nat &&
  String.eqb (String.substring (String.length s - String.length p)
                               (String.length p) s) p.

(** Truth value of a Python string: the empty string is false. *)
Definition str_truthy (s : string) : bool :=
  match s with EmptyString => false | _ => true end.

(** Truth value of a variable holding [None] or a string. *)
Definition opt_truthy (o : option string) : bool :=
  match o with None => false | Some s => str_truthy s end.

Definition lower_ascii (c : ascii) : ascii :=
  let n := nat_of_ascii c in
  if ((65 <=? n) && (n <=? 90))%nat then ascii_of_nat (n + 32) else c.

(** [s.lower()], on the ASCII range operator names are written in. *)
Fixpoint lower (s : string) : string :=
  match s with
  | EmptyString => EmptyString
  | String c s' => String (lower_ascii c) (lower s')
  end.

(** ['%d' % n] for a natural number. *)
Definition string_of_nat (n : nat) : string :=
  NilEmpty.string_of_uint (Nat.to_uint n).

(** ** Dictionaries

    A Python [dict] keeps its keys in insertion order and [items()] walks
    them in that order; the order is what fixes the order of [keys]/[vals].
    A dict is therefore an association list with first-occurrence lookup. *)
Definition dict (V : Type) : Type := list (string * V).

Fixpoint dict_get {V} (k : string) (d : dict V) : option V :=
  match d with
  | [] => None
  | (k', v) :: d' => if String.eqb k' k then Some v else dict_get k d'
  end.

(** [k in d] *)
Definition dict_mem {V} (k : string) (d : dict V) : bool :=
  match dict_get k d with Some _ => true | None => false end.

(** [d[k] = v]: an existing key keeps its place, a new one goes last. *)
Fixpoint dict_set {V} (k : string) (v : V) (d : dict V) : dict V :=
  match d with
  | [] => [(k, v)]
  | (k', v') :: d' =>
      if String.eqb k' k then (k, v) :: d' else (k', v') :: dict_set k v d'
  end.

(** [d.update(e)] *)
Definition dict_update {V} (d e : dict V) : dict V :=
  fold_left (fun acc kv => dict_set (fst kv) (snd kv) acc) e d.

Fixpoint dict_remove {V} (k : string) (d : dict V) : dict V :=
  match d with
  | [] => []
  | (k', v) :: d' =>
      if String.eqb k' k then dict_remove k d' else (k', v) :: dict_remove k d'
  end.

(** [d.pop(k, default)]: the value and the dict that is left. *)
Definition dict_pop {V} (k : string) (default : V) (d : dict V) : V * dict V :=
  (match dict_get k d with Some v => v | None => default end, dict_remove k d).

Definition dict_keys {V} (d : dict V) : list string := map fst d.

(** ** Classification of the declared arguments *)

(** One entry of the parameter list of the generated [def].  The source
    keeps these as text (['%s=_Null'], ['%s=None'], ['*%s'], ['**kwargs']);
    [render] gives that text back. *)
Inductive sigitem : Type :=
| SigDefault (name : string) (default : value)
| SigStar (name : string)
| SigKw (name : string).

Definition render (i : sigitem) : string :=
  match i with
  | SigDefault n VNone => n ++ "=None"
  | SigDefault n _ => n ++ "=_Null"
  | SigStar n => "*" ++ n
  | SigKw n => "**" ++ n
  end.

(** The six variables the loop over the declared arguments fills in. *)
Record classified : Type := Classified {
  dtype_name : option string;
  arr_name : option string;
  ndsignature : list sigitem;
  signature : list sigitem;
  ndarg_names : list string;
  kwarg_names : list string
}.

Definition classified_init : classified :=
  Classified None None [] [] [] [].

Definition assert_one_array_msg : string :=
  "Op can only have one argument with variable size and it must be the last argument.".

(** [atype.startswith('NDArray') or atype.startswith('Symbol')] *)
Definition node_typed (atype : string) : bool :=
  startswith "NDArray" atype || startswith "Symbol" atype.

(** The body of [for i in range(narg)], for the pair
    [(arg_names[i], arg_types[i])]. *)
Definition classify_step (st : classified) (arg : string * string)
  : exn + classified :=
  let (name, atype) := arg in
  if String.eqb name "dtype" then
    inr (Classified (Some name) (arr_name st) (ndsignature st)
                    (signature st ++ [SigDefault name VNull])
                    (ndarg_names st) (kwarg_names st))
  else if node_typed atype then
    if opt_truthy (arr_name st) then inl (AssertionError assert_one_array_msg)
    else if endswith "[]" atype then
      inr (Classified (dtype_name st) (Some name)
                      (ndsignature st ++ [SigStar name]) (signature st)
                      (ndarg_names st) (kwarg_names st))
    else
      inr (Classified (dtype_name st) (arr_name st)
                      (ndsignature st ++ [SigDefault name VNone]) (signature st)
                      (ndarg_names st ++ [name]) (kwarg_names st))
  else
    inr (Classified (dtype_name st) (arr_name st) (ndsignature st)
                    (signature st ++ [SigDefault name VNull])
                    (ndarg_names st) (kwarg_names st ++ [name])).

Fixpoint classify_from (st : classified) (args : list (string * string))
  : exn + classified :=
  match args with
  | [] => inr st
  | a :: rest =>
      match classify_step st a with
      | inl e => inl e
      | inr st' => classify_from st' rest
      end
  end.

(** The whole loop, from the initial values of the six variables.  [args]
    is [zip(arg_names, arg_types)]. *)
Definition classify (args : list (string * string)) : exn + classified :=
  classify_from classified_init args.

(** [signature = ndsignature + signature] after the four reserved entries
    have been appended. *)
Definition full_signature (c : classified) : list sigitem :=
  ndsignature c ++ signature c ++
  [SigDefault "name" VNone; SigDefault "attr" VNone; SigDefault "out" VNone;
   SigKw "kwargs"].

(** *** The kinds the specification gives to a declared argument *)

Inductive ArgumentKind : Type :=
| VariadicNode | OptionalNode | DtypeScalar | PlainScalar.

Definition kind_of (arg : string * string) : ArgumentKind :=
  let (name, atype) := arg in
  if String.eqb name "dtype" then DtypeScalar
  else if node_typed atype then
    if endswith "[]" atype then VariadicNode else OptionalNode
  else PlainScalar.

Definition is_variadic (arg : string * string) : bool :=
  match kind_of arg with VariadicNode => true | _ => false end.

Definition is_node (arg : string * string) : bool :=
  match kind_of arg with
  | VariadicNode | OptionalNode => true
  | _ => false
  end.

(** More than one declared argument qualifies as node-array-typed. *)
Definition several_variadic (args : list (string * string)) : bool :=
  (2 <=? List.length (filter is_variadic args))%nat.

(** Some node-array-typed argument is not the last declared argument. *)
Fixpoint variadic_not_last (args : list (string * string)) : bool :=
  match args with
  | [] => false
  | a :: rest =>
      (is_variadic a && negb (match rest with [] => true | _ => false end))
      || variadic_not_last rest
  end.

(** Some node-typed argument comes after a node-array-typed one. *)
Fixpoint node_after_variadic (args : list (string * string)) : bool :=
  match args with
  | [] => false
  | a :: rest =>
      (is_variadic a && existsb is_node rest) || node_after_variadic rest
  end.

Definition raises {A} (r : exn + A) : bool :=
  match r with inl _ => true | inr _ => false end.

(** ** What a generated function reaches outside itself *)

(** The call [_symbol_creator(handle, args, kwargs, keys, vals, name)]
    as data.  [req_args] is [None] in the keyword-only
    convention.  [req_keys] and [req_vals] are the two lists the generated
    code fills by separate [append]s. *)
Record request : Type := Request {
  req_handle : Z;
  req_args : option (list value);
  req_kwargs : dict value;
  req_keys : list string;
  req_vals : list value;
  req_name : value
}.

(** The globals: [AttrScope.current], [NameManager.current] and the
    native library.  Of the library the model keeps the requests it has
    accepted so far and its verdict on a request, given those: the error it
    answers with if it refuses, [None] if it accepts. *)
Record world : Type := World {
  attr_scope : dict string;
  name_counter : dict nat;
  created : list request;
  engine_error : list request -> request -> option exn
}.

(** State and exceptions: a computation maps the world to an outcome and
    the world it leaves behind (also when it raises). *)
Definition M (A : Type) : Type := world -> (exn + A) * world.

Definition ret {A} (a : A) : M A := fun w => (inr a, w).

Definition raise {A} (e : exn) : M A := fun w => (inl e, w).

Definition bind {A B} (m : M A) (f : A -> M B) : M B :=
  fun w =>
    match m w with
    | (inl e, w') => (inl e, w')
    | (inr a, w') => f a w'
    end.

Definition lift {A} (r : exn + A) : M A := fun w => (r, w).

Notation "x <- m ;; k" := (bind m (fun x => k))
  (at level 61, m at next level, right associativity).
Notation "' p <- m ;; k" := (bind m (fun x => let p := x in k))
  (at level 61, p pattern, m at next level, right associativity).

(** Modelled from the spec: [AttrScope.current.get(attr)] is not in this
    file's source.  Section 6 of the specification: it returns the ambient
    attributes merged with any explicit override, the explicit override
    winning on a key conflict; both are mappings from string to string.  A
    value that is neither [None] nor a mapping is refused. *)
Definition AttrScope_merge (scope : dict string) (attr : value)
  : exn + dict string :=
  match attr with
  | VNone => inr scope
  | VAttrs d => inr (dict_update scope d)
  | _ => inl (TypeError "attr must be a mapping")
  end.

(** [AttrScope.current.get(attr)] as the generated code calls it: the
    merge above, on the scope that is active. *)
Definition AttrScope_get (attr : value) : M (dict string) :=
  fun w => (AttrScope_merge (attr_scope w) attr, w).

Definition counter_of (hint : string) (w : world) : nat :=
  match dict_get hint (name_counter w) with Some n => n | None => 0 end.

(** Modelled from the spec: [NameManager.current.get(name, hint)] is not in
    this file's source.  Section 6 and the glossary: it returns the
    requested name if one is present, else a fresh name derived from the
    base name by a per-base-name counter. *)
Definition NameManager_get (name : value) (hint : string) : M value :=
  fun w =>
    match name with
    | VNone =>
        let n := counter_of hint w in
        (inr (VStr (hint ++ string_of_nat n)),
         World (attr_scope w) (dict_set hint (S n) (name_counter w))
               (created w) (engine_error w))
    | _ => (inr name, w)
    end.

(** Modelled from the spec: [_symbol_creator] is the creation primitive
    behind the FFI boundary.  Section 6 of the specification: it receives
    the request and answers with a node handle, or fails with an error the
    engine defines, which reaches the caller as it is.  Which requests the
    engine refuses is left open ([engine_error]); a request it accepts is
    logged and the node is numbered by its position in the log, a request
    it refuses leaves no trace. *)
Definition _symbol_creator (r : request) : M value :=
  fun w =>
    match engine_error w (created w) r with
    | Some e => (inl e, w)
    | None =>
        (inr (VSym (List.length (created w))),
         World (attr_scope w) (name_counter w) (created w ++ [r])
               (engine_error w))
    end.

(** ** Calling a generated [def] *)

(** Positional arguments fill the named parameters from the left; a
    [*name] parameter takes what is left, a bare [*] takes nothing. *)
Fixpoint bind_positional (sig : list sigitem) (args : list value)
  : exn + (dict value * list value) :=
  match args with
  | [] => inr ([], [])
  | a :: args' =>
      match sig with
      | SigDefault n _ :: sig' =>
          match bind_positional sig' args' with
          | inl e => inl e
          | inr (env, star) => inr ((n, a) :: env, star)
          end
      | SigStar n :: _ =>
          if str_truthy n then inr ([], args)
          else inl (TypeError "too many positional arguments")
      | _ => inl (TypeError "too many positional arguments")
      end
  end.

Fixpoint param_names (sig : list sigitem) : list string :=
  match sig with
  | [] => []
  | SigDefault n _ :: sig' => n :: param_names sig'
  | _ :: sig' => param_names sig'
  end.

(** A keyword goes to the parameter of its name, else into [**kwargs];
    a name given twice is refused. *)
Fixpoint bind_keywords (params : list string) (kws : list (string * value))
         (env kwargs : dict value) : exn + (dict value * dict value) :=
  match kws with
  | [] => inr (env, kwargs)
  | (k, v) :: kws' =>
      if existsb (String.eqb k) params then
        if dict_mem k env
        then inl (TypeError ("got multiple values for argument " ++ k))
        else bind_keywords params kws' (dict_set k v env) kwargs
      else
        if dict_mem k kwargs
        then inl (TypeError ("keyword argument repeated: " ++ k))
        else bind_keywords params kws' env (dict_set k v kwargs)
  end.

Fixpoint fill_defaults (sig : list sigitem) (env : dict value) : dict value :=
  match sig with
  | [] => env
  | SigDefault n d :: sig' =>
      fill_defaults sig' (if dict_mem n env then env else dict_set n d env)
  | _ :: sig' => fill_defaults sig' env
  end.

(** The local variables a call starts with: the named parameters, the
    tuple behind [*name] and the dict behind [**kwargs]. *)
Record frame : Type := Frame {
  locals : dict value;
  star_args : list value;
  kwargs_in : dict value
}.

Definition bind_arguments (sig : list sigitem) (args : list value)
           (kws : list (string * value)) : exn + frame :=
  match bind_positional sig args with
  | inl e => inl e
  | inr (env, star) =>
      match bind_keywords (param_names sig) kws env [] with
      | inl e => inl e
      | inr (env', kwargs) => inr (Frame (fill_defaults sig env') star kwargs)
      end
  end.

(** Steps of a body that touch no global either return or raise. *)
Definition rbind {A B} (r : exn + A) (f : A -> exn + B) : exn + B :=
  match r with
  | inl e => inl e
  | inr a => f a
  end.

Notation "x <~ r ;; k" := (rbind r (fun x => k))
  (at level 61, r at next level, right associativity).

(** Reading a local variable. *)
Definition read_local (x : string) (env : dict value) : exn + value :=
  match dict_get x env with
  | Some v => inr v
  | None => inl (NameError x)
  end.

(** ** The generated functions *)

(** The three containers every generated body fills: [sym_kwargs], [keys]
    and [vals]. *)
Record routing : Type := Routing {
  sym_kwargs : dict value;
  keys : list string;
  vals : list value
}.

Definition routing_init : routing := Routing [] [] [].

(** [keys.append(k); vals.append(v)] *)
Definition append_scalar (k : string) (v : value) (r : routing) : routing :=
  Routing (sym_kwargs r) (keys r ++ [k]) (vals r ++ [v]).

(** [sym_kwargs[k] = v] *)
Definition set_sym_kwarg (k : string) (v : value) (r : routing) : routing :=
  Routing (dict_set k v (sym_kwargs r)) (keys r) (vals r).

(** [for k, v in kwargs.items(): ...], the loop both conventions share. *)
Fixpoint route_kwargs (items : list (string * value)) (r : routing) : routing :=
  match items with
  | [] => r
  | (k, v) :: rest =>
      route_kwargs rest
        (if isinstance_SymbolBase v then set_sym_kwarg k v r
         else append_scalar k v r)
  end.

(** [kwargs.update(attrs)]: attribute values are strings. *)
Definition attr_items (attrs : dict string) : dict value :=
  map (fun kv => (fst kv, VStr (snd kv))) attrs.

(** What the loop leaves in its variables [k] and [v]: the last item, if
    the loop ran at all. *)
Definition bind_loop_variables (items : list (string * value))
           (env : dict value) : dict value :=
  match List.last (map Some items) None with
  | Some (k, v) => dict_set "v" v (dict_set "k" (VStr k) env)
  | None => env
  end.

Section Generated.

(** Python's [str] and [numpy.dtype(x).name] are used by the generated
    code and defined outside the repository. *)
Variable py_str : value -> string.
Variable numpy_dtype_name : value -> exn + string.

Variable func_name : string.
Variable handle : Z.
Variable key_var_num_args : string.
Variable c : classified.

(** [for i in arr: assert isinstance(i, SymbolBase), ...;
    sym_args.append(i)] *)
Fixpoint collect_sym_args (arr sym_args : list value)
  : exn + list value :=
  match arr with
  | [] => inr sym_args
  | i :: rest =>
      if isinstance_SymbolBase i then collect_sym_args rest (sym_args ++ [i])
      else inl (AssertionError
             ("Positional arguments must be Symbol instances, but got "
              ++ py_str i))
  end.

(** [if 'dtype' in kwargs: kwargs['dtype'] = _numpy.dtype(...).name],
    emitted when a [dtype] argument is declared. *)
Definition canonical_dtype_kwarg (kwargs : dict value)
  : exn + dict value :=
  match dtype_name c with
  | None => inr kwargs
  | Some d =>
      match dict_get d kwargs with
      | None => inr kwargs
      | Some v =>
          n <~ numpy_dtype_name v ;;
          inr (dict_set d (VStr n) kwargs)
      end
  end.

(** [if 'K' not in kwargs: keys.append('K');
    vals.append(len(sym_args) + len(sym_kwargs))], emitted when
    [key_var_num_args] is a non-empty string. *)
Definition inject_key_var (sym_args : list value) (kwargs : dict value)
           (r : routing) : routing :=
  if str_truthy key_var_num_args then
    if negb (dict_mem key_var_num_args kwargs) then
      append_scalar key_var_num_args
        (VInt (Z.of_nat (List.length sym_args + List.length (sym_kwargs r)))) r
    else r
  else r.

(** The body emitted under [if arr_name:], run on the tuple behind
    [*arr_name] and the dict behind [**kwargs].  The body's first
    statement rebinds [sym_args]; an operator whose array argument has
    that very name therefore loops over the empty list. *)
Definition variadic_body (f : frame) : M value :=
  let arr :=
    match arr_name c with
    | Some a => if String.eqb a "sym_args" then [] else star_args f
    | None => star_args f
    end in
  sym_args <- lift (collect_sym_args arr []) ;;
  kwargs <- lift (canonical_dtype_kwarg (kwargs_in f)) ;;
  let (attr, kwargs) := dict_pop "attr" VNone kwargs in
  attrs <- AttrScope_get attr ;;
  let kwargs := dict_update kwargs (attr_items attrs) in
  let (name, kwargs) := dict_pop "name" VNone kwargs in
  name <- NameManager_get name (lower func_name) ;;
  let (_, kwargs) := dict_pop "out" VNone kwargs in
  let r := route_kwargs kwargs routing_init in
  let r := inject_key_var sym_args kwargs r in
  _symbol_creator
    (Request handle (Some sym_args) (sym_kwargs r) (keys r) (vals r) name).

(** The parameters of the variadic [def]: [*arr_name] and [**kwargs]. *)
Definition variadic_signature : list sigitem :=
  [SigStar (match arr_name c with Some a => a | None => "" end);
   SigKw "kwargs"].


(** [if X is not None: assert isinstance(X, SymbolBase), ...;
    sym_kwargs['X'] = X], once per name in [ndarg_names]. *)
Fixpoint node_params (names : list string) (env : dict value) (r : routing)
  : exn + routing :=
  match names with
  | [] => inr r
  | x :: rest =>
      v <~ read_local x env ;;
      if is_not_None v then
        if isinstance_SymbolBase v then
          node_params rest env (set_sym_kwarg x v r)
        else inl (AssertionError
               ("Argument " ++ x ++ " must be Symbol instances, but got "
                ++ py_str v))
      else node_params rest env r
  end.

(** [if X is not _Null: keys.append('X'); vals.append(X)], once per name
    in [kwarg_names]. *)
Fixpoint scalar_params (names : list string) (env : dict value) (r : routing)
  : exn + routing :=
  match names with
  | [] => inr r
  | x :: rest =>
      v <~ read_local x env ;;
      scalar_params rest env
        (if is_not_Null v then append_scalar x v r else r)
  end.

(** [if dtype is not _Null: keys.append('dtype');
    vals.append(_numpy.dtype(dtype).name)], emitted when a [dtype]
    argument is declared. *)
Definition dtype_param (env : dict value) (r : routing) : exn + routing :=
  match dtype_name c with
  | None => inr r
  | Some d =>
      v <~ read_local d env ;;
      if is_not_Null v then
        n <~ numpy_dtype_name v ;;
        inr (append_scalar d (VStr n) r)
      else inr r
  end.

(** The variables of the body once the loop over [kwargs.items()] is
    over: the parameters, overwritten by the body's own [sym_kwargs],
    [keys], [vals] and by the loop variables [k] and [v] where a
    parameter bears one of those names. *)
Definition locals_after_loop (env : dict value) (kwargs : dict value)
  : dict value :=
  bind_loop_variables kwargs
    (dict_set "vals" (VWorking "vals")
       (dict_set "keys" (VWorking "keys")
          (dict_set "sym_kwargs" (VWorking "sym_kwargs") env))).

(** The body emitted under [else:]. *)
Definition keyword_body (f : frame) : M value :=
  attr <- lift (read_local "attr" (locals f)) ;;
  attrs <- AttrScope_get attr ;;
  let kwargs := dict_update (kwargs_in f) (attr_items attrs) in
  let r := route_kwargs kwargs routing_init in
  let env := locals_after_loop (locals f) kwargs in
  r <- lift (node_params (ndarg_names c) env r) ;;
  r <- lift (scalar_params (kwarg_names c) env r) ;;
  r <- lift (dtype_param env r) ;;
  name <- lift (read_local "name" env) ;;
  name <- NameManager_get name (lower func_name) ;;
  _symbol_creator
    (Request handle None (sym_kwargs r) (keys r) (vals r) name).

(** The parameter list of the [def] that is emitted. *)
Definition call_signature : list sigitem :=
  if opt_truthy (arr_name c) then variadic_signature else full_signature c.

Definition generated_body (f : frame) : M value :=
  if opt_truthy (arr_name c) then variadic_body f else keyword_body f.

(** The function [exec] leaves in [local[func_name]]: Python binds the
    arguments of the call to the parameters, then runs the body. *)
Definition generated_call (args : list value) (kws : list (string * value))
  : M value :=
  f <- lift (bind_arguments call_signature args kws) ;;
  generated_body f.

End Generated.

(** What [MXSymbolGetAtomicSymbolInfo] reports for one operator, as far as
    the generated function depends on it. *)
Record op_info : Type := OpInfo {
  info_handle : Z;
  info_name : string;
  info_args : list (string * string);
  info_key_var_num_args : string
}.

(** [_make_atomic_symbol_function(handle, name)]: classify, then build the
    function of the convention [arr_name] selects. *)
Definition _make_atomic_symbol_function
           (py_str : value -> string)
           (numpy_dtype_name : value -> exn + string)
           (info : op_info)
  : exn + (list value -> list (string * value) -> M value) :=
  match classify (info_args info) with
  | inl e => inl e
  | inr c =>
      inr (generated_call py_str numpy_dtype_name (info_name info)
             (info_handle info) (info_key_var_num_args info) c)
  end.

(** ** Reading a call without the globals

    Everything a body does before it asks for a name and calls the
    primitive depends on the world only through the attribute scope.  The
    two plans below are the bodies up to that point, as functions of the
    scope; [variadic_body_plan] and [keyword_body_plan] prove that the
    bodies are these plans followed by the two global steps. *)

Section Plans.

Variable py_str : value -> string.
Variable numpy_dtype_name : value -> exn + string.
Variable handle : Z.
Variable key_var_num_args : string.
Variable c : classified.

Definition variadic_plan (scope : dict string) (f : frame)
  : exn + (list value * dict value * value) :=
  let arr :=
    match arr_name c with
    | Some a => if String.eqb a "sym_args" then [] else star_args f
    | None => star_args f
    end in
  sym_args <~ collect_sym_args py_str arr [] ;;
  kwargs <~ canonical_dtype_kwarg numpy_dtype_name c (kwargs_in f) ;;
  let (attr, kwargs) := dict_pop "attr" VNone kwargs in
  attrs <~ AttrScope_merge scope attr ;;
  let kwargs := dict_update kwargs (attr_items attrs) in
  let (name, kwargs) := dict_pop "name" VNone kwargs in
  let (_, kwargs) := dict_pop "out" VNone kwargs in
  inr (sym_args, kwargs, name).

Definition variadic_request (sym_args : list value) (kwargs : dict value)
           (name : value) : request :=
  let r := inject_key_var key_var_num_args sym_args kwargs
             (route_kwargs kwargs routing_init) in
  Request handle (Some sym_args) (sym_kwargs r) (keys r) (vals r) name.

Definition keyword_plan (scope : dict string) (f : frame)
  : exn + (routing * value) :=
  attr <~ read_local "attr" (locals f) ;;
  attrs <~ AttrScope_merge scope attr ;;
  let kwargs := dict_update (kwargs_in f) (attr_items attrs) in
  let r := route_kwargs kwargs routing_init in
  let env := locals_after_loop (locals f) kwargs in
  r <~ node_params py_str (ndarg_names c) env r ;;
  r <~ scalar_params (kwarg_names c) env r ;;
  r <~ dtype_param numpy_dtype_name c env r ;;
  name <~ read_local "name" env ;;
  inr (r, name).

Definition keyword_request (r : routing) (name : value) : request :=
  Request handle None (sym_kwargs r) (keys r) (vals r) name.

End Plans.

(** ** Vocabulary of the claims *)

(** [d.pop(k, None)[0]]: the value under [k], [None] when there is none. *)
Definition popped (k : string) (d : dict value) : value :=
  fst (dict_pop k VNone d).

(** The value the caller gave for the reserved keyword [attr]. *)
Definition explicit_attr (c : classified) (f : frame) : value :=
  if opt_truthy (arr_name c) then popped "attr" (kwargs_in f)
  else popped "attr" (locals f).

(** The value the caller gave for the reserved keyword [name]. *)
Definition name_argument (c : classified) (f : frame) : value :=
  if opt_truthy (arr_name c) then popped "name" (kwargs_in f)
  else popped "name" (locals f).

(** The attributes [AttrScope.current.get] answers with. *)
Definition merged_attrs (scope : dict string) (attr : value) : dict string :=
  match attr with
  | VAttrs d => dict_update scope d
  | _ => scope
  end.

(** The keyword mapping the routing loop of the variadic body walks, from
    the mapping [kw1] the dtype step left: [attr] popped, the merged
    attributes folded in, [name] and [out] popped. *)
Definition routed_mapping (scope : dict string) (kw1 : dict value)
  : dict value :=
  dict_remove "out"
    (dict_remove "name"
       (dict_update (dict_remove "attr" kw1)
          (attr_items (merged_attrs scope (popped "attr" kw1))))).

(** The entries of a keyword mapping that are not node references, in the
    mapping's order. *)
Definition scalar_items (kwargs : dict value) : list (string * value) :=
  filter (fun kv => negb (isinstance_SymbolBase (snd kv))) kwargs.

(** The entries the declared plain scalars contribute: one per name whose
    variable holds something else than [_Null], in declaration order. *)
Fixpoint declared_scalar_items (names : list string) (env : dict value)
  : list (string * value) :=
  match names with
  | [] => []
  | x :: rest =>
      match dict_get x env with
      | Some v =>
          if is_not_Null v then (x, v) :: declared_scalar_items rest env
          else declared_scalar_items rest env
      | None => declared_scalar_items rest env
      end
  end.

(** The [i]-th key and the [i]-th value of a request. *)
Definition entry_at (r : request) (i : nat) : option (string * value) :=
  match nth_error (req_keys r) i, nth_error (req_vals r) i with
  | Some k, Some v => Some (k, v)
  | _, _ => None
  end.

(** The key/value entries of a request, index by index. *)
Definition entries (r : request) : list (string * value) :=
  combine (req_keys r) (req_vals r).

(** The last request the native library received. *)
Definition last_request (w : world) : option request :=
  List.last (map Some (created w)) None.

(** ** A concrete runtime for the examples *)

(** A rendering in the manner of Python's [str], used where an example
    needs one. *)
Definition sample_str (v : value) : string :=
  match v with
  | VNone => "None"
  | VNull => "_Null"
  | VSym n => "<Symbol " ++ string_of_nat n ++ ">"
  | VInt z => NilZero.string_of_int (Z.to_int z)
  | VStr s => s
  | VAttrs _ => "{...}"
  | VWorking x => x
  end.

(** A stand-in for [numpy.dtype(x).name] on type names given as strings. *)
Definition sample_dtype_name (v : value) : exn + string :=
  match v with
  | VStr s => inr s
  | _ => inl (ForeignError "data type not understood")
  end.

(** An engine that accepts every request, and one that refuses every
    request with the same error. *)
Definition accepting : list request -> request -> option exn :=
  fun _ _ => None.

Definition refusing (msg : string) : list request -> request -> option exn :=
  fun _ _ => Some (ForeignError msg).

Definition world_init : world := World [] [] [] accepting.

(** The operators of the specification's scenarios, and two more. *)
Definition Add_info : op_info :=
  OpInfo 11 "Add" [("a", "Symbol"); ("b", "Symbol")] "".

Definition Concat_info : op_info :=
  OpInfo 12 "Concat"
         [("data", "Symbol[]"); ("dim", "int"); ("num_args", "int")]
         "num_args".

Definition Cast_info : op_info :=
  OpInfo 13 "Cast" [("data", "Symbol"); ("axis", "int"); ("dtype", "string")] "".

Definition topk_info : op_info :=
  OpInfo 14 "topk" [("data", "Symbol"); ("k", "int")] "".

(** An operator whose count key bears the name of a reserved keyword. *)
Definition Stack_info : op_info :=
  OpInfo 15 "Stack" [("data", "Symbol[]")] "out".

(** Running a synthesized function from a given world. *)
Definition run_op (info : op_info) (args : list value)
           (kws : list (string * value)) (w : world)
  : (exn + value) * world :=
  match _make_atomic_symbol_function sample_str sample_dtype_name info with
  | inl e => (inl e, w)
  | inr f => f args kws w
  end.

(** What [classify] answers for these operators. *)
Definition Add_sig : classified :=
  Classified None None [SigDefault "a" VNone; SigDefault "b" VNone] []
             ["a"; "b"] [].

Definition Concat_sig : classified :=
  Classified None (Some "data") [SigStar "data"]
             [SigDefault "dim" VNull; SigDefault "num_args" VNull]
             [] ["dim"; "num_args"].

Definition Cast_sig : classified :=
  Classified (Some "dtype") None [SigDefault "data" VNone]
             [SigDefault "axis" VNull; SigDefault "dtype" VNull]
             ["data"] ["axis"].

Definition topk_sig : classified :=
  Classified None None [SigDefault "data" VNone] [SigDefault "k" VNull]
             ["data"] ["k"].

(** The generated function of an operator, for the sample runtime. *)
Definition sample_call (info : op_info) (c : classified)
  : list value -> list (string * value) -> M value :=
  generated_call sample_str sample_dtype_name (info_name info)
                 (info_handle info) (info_key_var_num_args info) c.

(** ** More vocabulary: what becomes of the declared arguments *)

Definition is_optional_node (arg : string * string) : bool :=
  match kind_of arg with OptionalNode => true | _ => false end.

Definition is_plain_scalar (arg : string * string) : bool :=
  match kind_of arg with PlainScalar => true | _ => false end.

Definition is_dtype_scalar (arg : string * string) : bool :=
  match kind_of arg with DtypeScalar => true | _ => false end.

(** The arguments that get a [=_Null] parameter. *)
Definition is_scalar (arg : string * string) : bool :=
  is_dtype_scalar arg || is_plain_scalar arg.

(** The entries of a keyword mapping that are node references, in the
    mapping's order. *)
Definition node_items (kwargs : dict value) : list (string * value) :=
  filter (fun kv => isinstance_SymbolBase (snd kv)) kwargs.

(** What the count injection adds to [keys]/[vals], if anything. *)
Definition injected_entry (key_var_num_args : string) (sym_args : list value)
           (kwargs : dict value) : list (string * value) :=
  if str_truthy key_var_num_args && negb (dict_mem key_var_num_args kwargs)
  then [(key_var_num_args,
         VInt (Z.of_nat (List.length sym_args
                         + List.length (node_items kwargs))))]
  else [].

(** ** Choosing the low-level binding

    The [try]/[except ImportError] at the head of the module picks the
    module [SymbolBase], [_set_symbol_class] and [_symbol_creator] come
    from. *)

Inductive binding : Type := Ctypes | Cy3 | Cy2.

(** What can come out of the block: an [ImportError], or whatever [int]
    raised on the text of an environment variable. *)
Inductive load_exn : Type :=
| ImportError (msg : string)
| PropagatedError (e : exn).

Definition enforce_cython_msg : string :=
  "Cython Module cannot be loaded but MXNET_ENFORCE_CYTHON=1".

Section SelectBinding.

(** Python's [int] on the text of an environment variable. *)
Variable py_int : string -> exn + Z.

(** Whether [from .._X.symbol import ...] succeeds; when it does not, it
    raises [ImportError]. *)
Variable importable : binding -> bool.

(** [int(_os.environ.get(var, default))], for a default that is [True]
    (1) or [False] (0). *)
Definition env_int (v : option string) (default : Z) : exn + Z :=
  match v with
  | None => inr default
  | Some s => py_int s
  end.

(** The block, for the values of [MXNET_ENABLE_CYTHON] and
    [MXNET_ENFORCE_CYTHON] in the environment and for
    [_sys.version_info >= (3, 0)]. *)
Definition select_binding (enable enforce : option string) (py3 : bool)
  : load_exn + binding :=
  match env_int enable 1 with
  | inl e => inl (PropagatedError e)
  | inr n =>
      let wanted :=
        if (n =? 0)%Z then Ctypes else if py3 then Cy3 else Cy2 in
      if importable wanted then inr wanted
      else
        match env_int enforce 0 with
        | inl e => inl (PropagatedError e)
        | inr m =>
            if negb (m =? 0)%Z then inl (ImportError enforce_cython_msg)
            else if importable Ctypes then inr Ctypes
            else inl (ImportError "No module named _ctypes.symbol")
        end
  end.

End SelectBinding.

(** [int] on the decimal texts the examples use. *)
Definition sample_int (s : string) : exn + Z :=
  match NilZero.int_of_string s with
  | Some d => inr (Z.of_int d)
  | None => inl (ForeignError "invalid literal for int()")
  end.

(** * Properties *)

(** ** Classification *)

Lemma str_truthy_nonempty (s : string) : s <> "" -> str_truthy s = true.
Proof. destruct s; [congruence | reflexivity]. Qed.

Lemma kind_of_dtype (atype : string) : kind_of ("dtype", atype) = DtypeScalar.
Proof. reflexivity. Qed.

(** The loop raises exactly when an array argument is already recorded and
    a node-typed argument is still to come, or when the remaining arguments
    hold such a pair themselves. *)
Lemma classify_from_raises (args : list (string * string)) :
  Forall (fun a => fst a <> "") args ->
  forall st,
    raises (classify_from st args)
    = (opt_truthy (arr_name st) && existsb is_node args)
      || node_after_variadic args.
Proof.
  induction 1 as [| [n t] rest Hn Hrest IH]; intro st.
  - simpl. now rewrite andb_false_r.
  - cbn [classify_from classify_step node_after_variadic existsb].
    unfold is_variadic, is_node, kind_of.
    destruct (String.eqb n "dtype").
    + rewrite IH. reflexivity.
    + destruct (node_typed t).
      * destruct (opt_truthy (arr_name st)) eqn:Harr.
        { destruct (endswith "[]" t); reflexivity. }
        destruct (endswith "[]" t).
        -- rewrite IH. cbn [arr_name opt_truthy fst] in *.
           rewrite (str_truthy_nonempty _ Hn). simpl.
           now destruct (existsb _ rest).
        -- rewrite IH. cbn [arr_name]. rewrite Harr. reflexivity.
      * rewrite IH. cbn [arr_name]. simpl. reflexivity.
Qed.

Lemma classify_from_error (args : list (string * string)) :
  forall st e, classify_from st args = inl e ->
               e = AssertionError assert_one_array_msg.
Proof.
  induction args as [| [n t] rest IH]; intros st e; simpl.
  - discriminate.
  - destruct (String.eqb n "dtype"); [apply IH |].
    destruct (node_typed t); [| apply IH].
    destruct (opt_truthy (arr_name st)); [congruence |].
    destruct (endswith "[]" t); apply IH.
Qed.

(** What the loop never does to an argument named [dtype]. *)
Definition dtype_kept_scalar (st : classified) : Prop :=
  ~ In "dtype" (ndarg_names st)
  /\ ~ In "dtype" (kwarg_names st)
  /\ arr_name st <> Some "dtype"
  /\ (forall d, ~ In (SigDefault "dtype" d) (ndsignature st))
  /\ ~ In (SigStar "dtype") (ndsignature st)
  /\ (dtype_name st = None \/ dtype_name st = Some "dtype").

Lemma not_in_app_singleton {A} (x y : A) (l : list A) :
  ~ In x l -> x <> y -> ~ In x (l ++ [y]).
Proof.
  intros Hl Hxy Hin. apply in_app_or in Hin. destruct Hin as [H | [H | []]].
  - now apply Hl.
  - now apply Hxy.
Qed.

Lemma classify_step_keeps_dtype_scalar st a st' :
  dtype_kept_scalar st -> classify_step st a = inr st' -> dtype_kept_scalar st'.
Proof.
  intros (Hnd & Hkw & Harr & Hsig & Hstar & Hdt). destruct a as [n t].
  unfold classify_step.
  destruct (String.eqb n "dtype") eqn:En.
  - intros [= <-]. apply String.eqb_eq in En. subst n.
    repeat split; cbn; auto.
  - apply String.eqb_neq in En.
    assert (Hne : "dtype" <> n) by congruence.
    destruct (node_typed t).
    + destruct (opt_truthy (arr_name st)); [discriminate |].
      destruct (endswith "[]" t); intros [= <-]; repeat split; cbn; auto.
      * congruence.
      * intros d. apply not_in_app_singleton; [apply Hsig | discriminate].
      * apply not_in_app_singleton; [assumption | congruence].
      * now apply not_in_app_singleton.
      * intros d. apply not_in_app_singleton; [apply Hsig | congruence].
      * apply not_in_app_singleton; [assumption | discriminate].
    + intros [= <-]. repeat split; cbn; auto.
      now apply not_in_app_singleton.
Qed.

Lemma classify_from_keeps_dtype_scalar args :
  forall st c, dtype_kept_scalar st -> classify_from st args = inr c ->
               dtype_kept_scalar c.
Proof.
  induction args as [| a rest IH]; intros st c Hst; simpl.
  - now intros [= <-].
  - destruct (classify_step st a) as [e | st'] eqn:Hstep; [discriminate |].
    apply IH. eapply classify_step_keeps_dtype_scalar; eassumption.
Qed.

Lemma classified_init_dtype_scalar : dtype_kept_scalar classified_init.
Proof.
  unfold dtype_kept_scalar; cbn. intuition congruence.
Qed.

Lemma classify_dtype_name args c :
  classify args = inr c -> dtype_name c = None \/ dtype_name c = Some "dtype".
Proof.
  intro H.
  apply (classify_from_keeps_dtype_scalar _ _ _ classified_init_dtype_scalar H).
Qed.

(** Once [dtype] has been entered, the rest of the loop leaves it in
    place. *)
Lemma classify_from_dtype_stays args :
  forall st c, dtype_name st = Some "dtype" ->
               In (SigDefault "dtype" VNull) (signature st) ->
               classify_from st args = inr c ->
               dtype_name c = Some "dtype"
               /\ In (SigDefault "dtype" VNull) (signature c).
Proof.
  induction args as [| [n t] rest IH]; intros st c Hd Hs; simpl.
  - intros [= <-]. now split.
  - destruct (String.eqb n "dtype") eqn:En.
    + apply String.eqb_eq in En. subst n.
      apply IH; cbn; [reflexivity | apply in_or_app; now left].
    + destruct (node_typed t).
      * destruct (opt_truthy (arr_name st)); [discriminate |].
        destruct (endswith "[]" t); apply IH; cbn; assumption.
      * apply IH; cbn; [assumption | apply in_or_app; now left].
Qed.

Lemma classify_from_dtype_entered args :
  forall st c atype, In ("dtype", atype) args ->
                     classify_from st args = inr c ->
                     dtype_name c = Some "dtype"
                     /\ In (SigDefault "dtype" VNull) (signature c).
Proof.
  induction args as [| [n t] rest IH]; intros st c atype Hin; simpl.
  - destruct Hin.
  - destruct Hin as [Heq | Hin].
    + injection Heq as -> ->. cbn.
      apply classify_from_dtype_stays; cbn;
        [reflexivity | apply in_or_app; right; now left].
    + destruct (classify_step st (n, t)) as [e | st'] eqn:Hstep.
      * unfold classify_step in Hstep. rewrite Hstep. discriminate.
      * unfold classify_step in Hstep. rewrite Hstep. now apply IH with atype.
Qed.

(** Two node-array arguments are never accepted: the second one follows
    the first. *)
Lemma several_variadic_node_after (args : list (string * string)) :
  several_variadic args = true -> node_after_variadic args = true.
Proof.
  unfold several_variadic.
  induction args as [| a rest IH]; simpl; [discriminate |].
  destruct (is_variadic a) eqn:Ha; simpl.
  - intro H. apply orb_true_iff. left.
    destruct (filter is_variadic rest) as [| b l] eqn:Hf; [discriminate |].
    apply existsb_exists. exists b.
    assert (Hb : In b (filter is_variadic rest)) by (rewrite Hf; now left).
    apply filter_In in Hb. destruct Hb as [Hin Hb]. split; [exact Hin |].
    unfold is_variadic in Hb. unfold is_node.
    now destruct (kind_of b).
  - exact IH.
Qed.

(** ** The bodies as plans *)

Section BodyPlans.

Variable py_str : value -> string.
Variable numpy_dtype_name : value -> exn + string.
Variable func_name : string.
Variable handle : Z.
Variable key_var_num_args : string.
Variable c : classified.

Lemma variadic_body_plan (f : frame) (w : world) :
  variadic_body py_str numpy_dtype_name func_name handle key_var_num_args c f w
  = match variadic_plan py_str numpy_dtype_name c (attr_scope w) f with
    | inl e => (inl e, w)
    | inr (sym_args, kwargs, name) =>
        bind (NameManager_get name (lower func_name))
             (fun name' =>
                _symbol_creator
                  (variadic_request handle key_var_num_args
                                    sym_args kwargs name')) w
    end.
Proof.
  unfold variadic_body, variadic_plan, bind, lift, rbind.
  destruct (collect_sym_args py_str _ []) as [e | sa]; [reflexivity |].
  destruct (canonical_dtype_kwarg numpy_dtype_name c (kwargs_in f))
    as [e | kw]; [reflexivity |].
  unfold dict_pop, AttrScope_get.
  destruct (AttrScope_merge (attr_scope w) _) as [e | attrs]; reflexivity.
Qed.

Lemma keyword_body_plan (f : frame) (w : world) :
  keyword_body py_str numpy_dtype_name func_name handle c f w
  = match keyword_plan py_str numpy_dtype_name c (attr_scope w) f with
    | inl e => (inl e, w)
    | inr (r, name) =>
        bind (NameManager_get name (lower func_name))
             (fun name' => _symbol_creator (keyword_request handle r name')) w
    end.
Proof.
  unfold keyword_body, keyword_plan, bind, lift, rbind, AttrScope_get.
  destruct (read_local "attr" (locals f)) as [e | attr]; [reflexivity |].
  destruct (AttrScope_merge (attr_scope w) attr) as [e | attrs];
    [reflexivity |].
  destruct (node_params py_str (ndarg_names c) _ _) as [e | r1];
    [reflexivity |].
  destruct (scalar_params (kwarg_names c) _ r1) as [e | r2]; [reflexivity |].
  destruct (dtype_param numpy_dtype_name c _ r2) as [e | r3]; [reflexivity |].
  destruct (read_local "name" _) as [e | nm]; reflexivity.
Qed.

(** The two global steps: a name is always produced, the request is
    handed over with it, and the engine's verdict decides how the call
    ends.  A refusal comes after the name has been drawn. *)
Lemma name_then_create (name : value) (mk : value -> request) (w : world) :
  exists name' counters,
    bind (NameManager_get name (lower func_name))
         (fun n => _symbol_creator (mk n)) w
    = match engine_error w (created w) (mk name') with
      | Some e =>
          (inl e,
           World (attr_scope w) counters (created w) (engine_error w))
      | None =>
          (inr (VSym (List.length (created w))),
           World (attr_scope w) counters (created w ++ [mk name'])
                 (engine_error w))
      end
    /\ NameManager_get name (lower func_name) w
       = (inr name',
          World (attr_scope w) counters (created w) (engine_error w)).
Proof.
  unfold bind, NameManager_get, _symbol_creator.
  destruct w as [sc nc cr en].
  destruct name; cbn; eexists; eexists; (split; [| reflexivity]);
    cbn; destruct (en cr (mk _)); reflexivity.
Qed.

End BodyPlans.

(** A synthesized function is the generated call of a classification that
    succeeded, and its [dtype_name], if any, is the literal [dtype]. *)
Lemma synthesized_callable_inv (py_str : value -> string)
      (numpy_dtype_name : value -> exn + string) (info : op_info)
      (f : list value -> list (string * value) -> M value) :
  _make_atomic_symbol_function py_str numpy_dtype_name info = inr f ->
  exists c,
    classify (info_args info) = inr c
    /\ (dtype_name c = None \/ dtype_name c = Some "dtype")
    /\ f = generated_call py_str numpy_dtype_name (info_name info)
                          (info_handle info) (info_key_var_num_args info) c.
Proof.
  unfold _make_atomic_symbol_function.
  destruct (classify (info_args info)) as [e | c] eqn:Hc; [discriminate |].
  intros [= <-]. exists c. split; [reflexivity |].
  split; [exact (classify_dtype_name _ _ Hc) | reflexivity].
Qed.

(** ** Dictionaries *)

Section DictFacts.

Context {V : Type}.
Implicit Types (d e : dict V) (k : string) (v : V).

Lemma dict_get_set_same k v d : dict_get k (dict_set k v d) = Some v.
Proof.
  induction d as [| [k' v'] d IH]; simpl.
  - now rewrite String.eqb_refl.
  - destruct (String.eqb k' k) eqn:E; simpl.
    + now rewrite String.eqb_refl.
    + now rewrite E.
Qed.

Lemma dict_get_set_other k k' v d :
  k <> k' -> dict_get k' (dict_set k v d) = dict_get k' d.
Proof.
  intro Hne. induction d as [| [k0 v0] d IH]; simpl.
  - apply String.eqb_neq in Hne. now rewrite Hne.
  - destruct (String.eqb k0 k) eqn:E; simpl.
    + apply String.eqb_eq in E. subst k0.
      apply String.eqb_neq in Hne. now rewrite Hne.
    + destruct (String.eqb k0 k'); [reflexivity | exact IH].
Qed.

Lemma dict_keys_set k v d x :
  In x (dict_keys (dict_set k v d)) <-> x = k \/ In x (dict_keys d).
Proof.
  induction d as [| [k0 v0] d IH]; simpl.
  - intuition.
  - destruct (String.eqb k0 k) eqn:E; simpl.
    + apply String.eqb_eq in E. subst k0. intuition.
    + rewrite IH. intuition.
Qed.

Lemma dict_set_NoDup k v d :
  NoDup (dict_keys d) -> NoDup (dict_keys (dict_set k v d)).
Proof.
  induction d as [| [k0 v0] d IH]; simpl; intro H.
  - constructor; [intros [] | constructor].
  - inversion H as [| ? ? Hn Hd]; subst.
    destruct (String.eqb k0 k) eqn:E; simpl.
    + apply String.eqb_eq in E. subst k0. now constructor.
    + constructor; [| now apply IH].
      intro Hin. apply dict_keys_set in Hin. destruct Hin as [-> | Hin].
      * now rewrite String.eqb_refl in E.
      * now apply Hn.
Qed.

Lemma dict_update_NoDup e : forall d,
  NoDup (dict_keys d) -> NoDup (dict_keys (dict_update d e)).
Proof.
  unfold dict_update.
  induction e as [| [k v] e IH]; intros d H; simpl; [exact H |].
  apply IH. now apply dict_set_NoDup.
Qed.

Lemma dict_get_None k d : dict_get k d = None <-> ~ In k (dict_keys d).
Proof.
  induction d as [| [k0 v0] d IH]; simpl.
  - intuition.
  - destruct (String.eqb k0 k) eqn:E.
    + apply String.eqb_eq in E. subst. split; [discriminate | intuition].
    + apply String.eqb_neq in E. rewrite IH. intuition.
Qed.

Lemma dict_get_In k v d : dict_get k d = Some v -> In (k, v) d.
Proof.
  induction d as [| [k0 v0] d IH]; simpl; [discriminate |].
  destruct (String.eqb k0 k) eqn:E.
  - apply String.eqb_eq in E. subst. intros [= ->]. now left.
  - intro H. right. now apply IH.
Qed.

Lemma dict_In_get k v d :
  NoDup (dict_keys d) -> In (k, v) d -> dict_get k d = Some v.
Proof.
  induction d as [| [k0 v0] d IH]; simpl; intros Hnd Hin; [destruct Hin |].
  inversion Hnd as [| ? ? Hn Hd]; subst.
  destruct Hin as [[= -> ->] | Hin].
  - now rewrite String.eqb_refl.
  - destruct (String.eqb k0 k) eqn:E.
    + apply String.eqb_eq in E. subst k0. exfalso. apply Hn.
      change k with (fst (k, v)). now apply in_map.
    + now apply IH.
Qed.

Lemma dict_get_update k e : forall d,
  NoDup (dict_keys e) ->
  dict_get k (dict_update d e)
  = match dict_get k e with Some v => Some v | None => dict_get k d end.
Proof.
  unfold dict_update.
  induction e as [| [k0 v0] e IH]; intros d Hnd; simpl; [reflexivity |].
  inversion Hnd as [| ? ? Hn Hd]; subst.
  rewrite (IH _ Hd).
  destruct (String.eqb k0 k) eqn:E.
  - apply String.eqb_eq in E. subst k0.
    apply dict_get_None in Hn. rewrite Hn. apply dict_get_set_same.
  - apply String.eqb_neq in E.
    destruct (dict_get k e); [reflexivity | now apply dict_get_set_other].
Qed.

Lemma dict_keys_remove k d x :
  In x (dict_keys (dict_remove k d)) <-> x <> k /\ In x (dict_keys d).
Proof.
  induction d as [| [k0 v0] d IH]; simpl.
  - intuition.
  - destruct (String.eqb k0 k) eqn:E.
    + apply String.eqb_eq in E. subst k0. rewrite IH. intuition congruence.
    + apply String.eqb_neq in E. simpl. rewrite IH. intuition congruence.
Qed.

Lemma dict_remove_NoDup k d :
  NoDup (dict_keys d) -> NoDup (dict_keys (dict_remove k d)).
Proof.
  induction d as [| [k0 v0] d IH]; simpl; intro H; [constructor |].
  inversion H as [| ? ? Hn Hd]; subst.
  destruct (String.eqb k0 k); [now apply IH |].
  simpl. constructor; [| now apply IH].
  intro Hin. apply dict_keys_remove in Hin. now apply Hn.
Qed.

Lemma dict_get_remove_same k d : dict_get k (dict_remove k d) = None.
Proof.
  apply dict_get_None. intro H. apply dict_keys_remove in H. now destruct H.
Qed.

Lemma dict_get_remove_other k k' d :
  k <> k' -> dict_get k' (dict_remove k d) = dict_get k' d.
Proof.
  intro Hne. induction d as [| [k0 v0] d IH]; simpl; [reflexivity |].
  destruct (String.eqb k0 k) eqn:E; simpl.
  - apply String.eqb_eq in E. subst k0.
    apply String.eqb_neq in Hne. now rewrite Hne.
  - now rewrite IH.
Qed.

Lemma dict_mem_true k d : dict_mem k d = true <-> In k (dict_keys d).
Proof.
  unfold dict_mem. destruct (dict_get k d) eqn:E.
  - split; [intros _ | reflexivity].
    apply dict_get_In in E. change k with (fst (k, v)). now apply in_map.
  - apply dict_get_None in E. split; [discriminate | contradiction].
Qed.

End DictFacts.

Lemma attr_items_keys (a : dict string) : dict_keys (attr_items a) = dict_keys a.
Proof. unfold attr_items, dict_keys. rewrite map_map. reflexivity. Qed.

Lemma attr_items_get (k : string) (a : dict string) :
  dict_get k (attr_items a) = option_map VStr (dict_get k a).
Proof.
  induction a as [| [k0 s0] a IH]; simpl; [reflexivity |].
  destruct (String.eqb k0 k); [reflexivity | exact IH].
Qed.

(** ** The routing loop *)

Lemma route_kwargs_keys (items : list (string * value)) :
  forall r, keys (route_kwargs items r)
            = keys r ++ map fst (scalar_items items).
Proof.
  induction items as [| [k v] rest IH]; intro r; simpl.
  - now rewrite app_nil_r.
  - rewrite IH. destruct (isinstance_SymbolBase v); simpl; [reflexivity |].
    now rewrite <- app_assoc.
Qed.

Lemma route_kwargs_vals (items : list (string * value)) :
  forall r, vals (route_kwargs items r)
            = vals r ++ map snd (scalar_items items).
Proof.
  induction items as [| [k v] rest IH]; intro r; simpl.
  - now rewrite app_nil_r.
  - rewrite IH. destruct (isinstance_SymbolBase v); simpl; [reflexivity |].
    now rewrite <- app_assoc.
Qed.

Lemma route_kwargs_sym_untouched (items : list (string * value)) (k : string) :
  ~ In k (dict_keys items) ->
  forall r, dict_get k (sym_kwargs (route_kwargs items r))
            = dict_get k (sym_kwargs r).
Proof.
  induction items as [| [k0 v0] rest IH]; intros Hn r; simpl; [reflexivity |].
  simpl in Hn. rewrite IH by tauto.
  destruct (isinstance_SymbolBase v0); simpl; [| reflexivity].
  apply dict_get_set_other. tauto.
Qed.

Lemma route_kwargs_sym_get (items : list (string * value)) (k : string) (v : value) :
  NoDup (dict_keys items) -> In (k, v) items -> isinstance_SymbolBase v = true ->
  forall r, dict_get k (sym_kwargs (route_kwargs items r)) = Some v.
Proof.
  induction items as [| [k0 v0] rest IH]; intros Hnd Hin Hs r; simpl;
    [destruct Hin |].
  inversion Hnd as [| ? ? Hn Hd]; subst.
  destruct Hin as [[= -> ->] | Hin].
  - rewrite route_kwargs_sym_untouched by exact Hn.
    rewrite Hs. simpl. apply dict_get_set_same.
  - now apply IH.
Qed.

Lemma scalar_items_In (k : string) (v : value) (items : list (string * value)) :
  In (k, v) (scalar_items items)
  <-> In (k, v) items /\ isinstance_SymbolBase v = false.
Proof.
  unfold scalar_items. rewrite filter_In. simpl.
  rewrite negb_true_iff. reflexivity.
Qed.

Lemma scalar_items_keys_incl (items : list (string * value)) (k : string) :
  In k (map fst (scalar_items items)) -> In k (dict_keys items).
Proof.
  intro H. apply in_map_iff in H. destruct H as ([k' v] & <- & Hin).
  apply scalar_items_In in Hin. destruct Hin as [Hin _].
  unfold dict_keys. now apply (in_map fst) in Hin.
Qed.

Lemma scalar_items_NoDup (items : list (string * value)) :
  NoDup (dict_keys items) -> NoDup (map fst (scalar_items items)).
Proof.
  induction items as [| [k v] rest IH]; simpl; intro H; [constructor |].
  inversion H as [| ? ? Hn Hd]; subst.
  destruct (isinstance_SymbolBase v); simpl; [now apply IH |].
  constructor; [| now apply IH].
  intro Hin. apply Hn. now apply scalar_items_keys_incl.
Qed.

Lemma scalar_items_no_node (items : list (string * value)) :
  Forall (fun v => isinstance_SymbolBase v = false)
         (map snd (scalar_items items)).
Proof.
  apply Forall_forall. intros v Hin.
  apply in_map_iff in Hin. destruct Hin as ([k v'] & <- & Hin).
  now apply scalar_items_In in Hin.
Qed.

Lemma combine_map_fst_snd {A B} (l : list (A * B)) :
  combine (map fst l) (map snd l) = l.
Proof.
  induction l as [| [a b] l IH]; simpl; [reflexivity | now rewrite IH].
Qed.

Lemma combine_app_aligned {A B} (l1 l2 : list A) (m1 m2 : list B) :
  List.length l1 = List.length m1 ->
  combine (l1 ++ l2) (m1 ++ m2) = combine l1 m1 ++ combine l2 m2.
Proof.
  revert m1. induction l1 as [| a l1 IH]; intros [| b m1]; simpl;
    try discriminate; [reflexivity |].
  intros [= H]. now rewrite IH.
Qed.

Lemma count_occ_NoDup_In (l : list string) (k : string) :
  NoDup l -> In k l -> count_occ string_dec l k = 1.
Proof.
  intros Hnd Hin.
  pose proof (proj1 (NoDup_count_occ string_dec l) Hnd k) as Hle.
  pose proof (proj1 (count_occ_In string_dec l k) Hin) as Hgt.
  lia.
Qed.

(** ** Binding the arguments of a call *)

Lemma dict_set_fresh {V} (k : string) (v : V) (d : dict V) :
  dict_mem k d = false -> dict_set k v d = d ++ [(k, v)].
Proof.
  unfold dict_mem. induction d as [| [k0 v0] d IH]; simpl; [reflexivity |].
  destruct (String.eqb k0 k); [discriminate |].
  intro H. now rewrite IH.
Qed.

Lemma bind_keywords_NoDup params kws :
  forall env kwargs env' kwargs',
    bind_keywords params kws env kwargs = inr (env', kwargs') ->
    NoDup (dict_keys kwargs) -> NoDup (dict_keys kwargs').
Proof.
  induction kws as [| [k v] kws IH]; intros env kwargs env' kwargs'; simpl.
  - now intros [= <- <-].
  - destruct (existsb (String.eqb k) params).
    + destruct (dict_mem k env); [discriminate |]. apply IH.
    + destruct (dict_mem k kwargs); [discriminate |].
      intros H Hnd. eapply IH; [exact H |]. now apply dict_set_NoDup.
Qed.

Lemma bind_arguments_NoDup sig args kws f :
  bind_arguments sig args kws = inr f -> NoDup (dict_keys (kwargs_in f)).
Proof.
  unfold bind_arguments.
  destruct (bind_positional sig args) as [e | [env star]]; [discriminate |].
  destruct (bind_keywords (param_names sig) kws env [])
    as [e | [env' kwargs]] eqn:Hk; [discriminate |].
  intros [= <-]. simpl.
  eapply bind_keywords_NoDup; [exact Hk | constructor].
Qed.

(** Without named parameters every keyword lands in [**kwargs], in the
    order of the call. *)
Lemma bind_keywords_open kws :
  forall env kwargs,
    NoDup (dict_keys kwargs ++ dict_keys kws) ->
    bind_keywords [] kws env kwargs = inr (env, kwargs ++ kws).
Proof.
  induction kws as [| [k v] kws IH]; intros env kwargs Hnd; simpl.
  - now rewrite app_nil_r.
  - assert (Hfresh : dict_mem k kwargs = false).
    { destruct (dict_mem k kwargs) eqn:E; [| reflexivity].
      apply dict_mem_true in E. simpl in Hnd.
      apply NoDup_remove_2 in Hnd. exfalso. apply Hnd.
      apply in_or_app. now left. }
    rewrite Hfresh, (dict_set_fresh _ _ _ Hfresh), IH.
    + now rewrite <- app_assoc.
    + unfold dict_keys in *. rewrite map_app, <- app_assoc. exact Hnd.
Qed.

Lemma bind_keywords_open_inv kws :
  forall env kwargs env' kwargs',
    bind_keywords [] kws env kwargs = inr (env', kwargs') ->
    env' = env /\ kwargs' = kwargs ++ kws.
Proof.
  induction kws as [| [k v] kws IH]; intros env kwargs env' kwargs'; simpl.
  - intros [= <- <-]. now rewrite app_nil_r.
  - destruct (dict_mem k kwargs) eqn:Hfresh; [discriminate |].
    rewrite (dict_set_fresh _ _ _ Hfresh). intro H.
    apply IH in H. destruct H as [-> ->]. now rewrite <- app_assoc.
Qed.

Lemma bind_variadic (a : string) (args : list value) (kws : list (string * value)) :
  str_truthy a = true -> NoDup (dict_keys kws) ->
  bind_arguments [SigStar a; SigKw "kwargs"] args kws
  = inr (Frame [] args kws).
Proof.
  intros Ha Hnd. unfold bind_arguments.
  assert (Hp : bind_positional [SigStar a; SigKw "kwargs"] args = inr ([], args)).
  { destruct args; simpl; [reflexivity | now rewrite Ha]. }
  rewrite Hp. simpl param_names.
  rewrite (bind_keywords_open kws [] []) by exact Hnd. reflexivity.
Qed.

Lemma bind_variadic_inv (a : string) (args : list value)
      (kws : list (string * value)) (f : frame) :
  str_truthy a = true ->
  bind_arguments [SigStar a; SigKw "kwargs"] args kws = inr f ->
  f = Frame [] args kws /\ NoDup (dict_keys kws).
Proof.
  intros Ha H.
  pose proof (bind_arguments_NoDup _ _ _ _ H) as Hnd.
  unfold bind_arguments in H.
  assert (Hp : bind_positional [SigStar a; SigKw "kwargs"] args = inr ([], args)).
  { destruct args; simpl; [reflexivity | now rewrite Ha]. }
  rewrite Hp in H. simpl param_names in H.
  destruct (bind_keywords [] kws [] []) as [e | [env' kwargs]] eqn:Hk;
    [discriminate |].
  apply bind_keywords_open_inv in Hk. destruct Hk as [-> ->].
  injection H as <-. simpl in *. now split.
Qed.

(** ** The variadic convention, step by step *)

Lemma dict_get_update_absent {V} (k : string) (e : dict V) :
  forall d, ~ In k (dict_keys e) ->
            dict_get k (dict_update d e) = dict_get k d.
Proof.
  unfold dict_update.
  induction e as [| [k0 v0] e IH]; intros d Hn; simpl; [reflexivity |].
  simpl in Hn. rewrite IH by tauto. apply dict_get_set_other. tauto.
Qed.

Lemma dict_keys_update {V} (e : dict V) : forall (d : dict V) (x : string),
  In x (dict_keys (dict_update d e))
  <-> In x (dict_keys d) \/ In x (dict_keys e).
Proof.
  unfold dict_update.
  induction e as [| [k0 v0] e IH]; intros d x; simpl; [tauto |].
  rewrite IH, dict_keys_set. intuition.
Qed.

Lemma AttrScope_merge_inv (scope : dict string) (attr : value) (attrs : dict string) :
  AttrScope_merge scope attr = inr attrs ->
  attrs = merged_attrs scope attr
  /\ (NoDup (dict_keys scope) -> NoDup (dict_keys attrs)).
Proof.
  destruct attr; simpl; try discriminate; intros [= <-]; split; auto.
  intro H. now apply dict_update_NoDup.
Qed.

Section VariadicSteps.

Variable py_str : value -> string.
Variable numpy_dtype_name : value -> exn + string.
Variable func_name : string.
Variable handle : Z.
Variable key_var_num_args : string.
Variable c : classified.

Hypothesis Hdtype : dtype_name c = None \/ dtype_name c = Some "dtype".

Lemma collect_sym_args_ok (arr : list value) :
  forall acc sa, collect_sym_args py_str arr acc = inr sa ->
                 sa = acc ++ arr
                 /\ Forall (fun v => isinstance_SymbolBase v = true) arr.
Proof.
  induction arr as [| i rest IH]; intros acc sa; simpl.
  - intros [= <-]. now rewrite app_nil_r.
  - destruct (isinstance_SymbolBase i) eqn:Hi; [| discriminate].
    intro H. apply IH in H. destruct H as [-> HF].
    rewrite <- app_assoc. split; [reflexivity | now constructor].
Qed.


Lemma canonical_dtype_kwarg_inv (kws kw1 : dict value) :
  canonical_dtype_kwarg numpy_dtype_name c kws = inr kw1 ->
  (forall k, k <> "dtype" -> dict_get k kw1 = dict_get k kws)
  /\ (dtype_name c = None -> kw1 = kws)
  /\ (NoDup (dict_keys kws) -> NoDup (dict_keys kw1)).
Proof.
  unfold canonical_dtype_kwarg.
  destruct Hdtype as [-> | ->].
  - intros [= <-]. repeat split; auto.
  - destruct (dict_get "dtype" kws) as [v |]; [| intros [= <-]; repeat split; auto; discriminate].
    destruct (numpy_dtype_name v) as [e | n]; simpl; [discriminate |].
    intros [= <-]. repeat split.
    + intros k Hk. apply dict_get_set_other. congruence.
    + discriminate.
    + apply dict_set_NoDup.
Qed.

Lemma variadic_plan_inv (scope : dict string) (f : frame)
      (sa : list value) (K : dict value) (nm : value) :
  variadic_plan py_str numpy_dtype_name c scope f = inr (sa, K, nm) ->
  exists kw1,
    canonical_dtype_kwarg numpy_dtype_name c (kwargs_in f) = inr kw1
    /\ K = routed_mapping scope kw1
    /\ nm = popped "name"
              (dict_update (dict_remove "attr" kw1)
                 (attr_items (merged_attrs scope (popped "attr" kw1))))
    /\ collect_sym_args py_str
         (match arr_name c with
          | Some a => if String.eqb a "sym_args" then [] else star_args f
          | None => star_args f
          end) [] = inr sa.
Proof.
  unfold variadic_plan, rbind.
  destruct (collect_sym_args py_str _ []) as [e | sa'] eqn:Hsa;
    [discriminate |].
  destruct (canonical_dtype_kwarg numpy_dtype_name c (kwargs_in f))
    as [e | kw1] eqn:Hkw; [discriminate |].
  unfold dict_pop.
  destruct (AttrScope_merge scope _) as [e | attrs] eqn:Hat; [discriminate |].
  apply AttrScope_merge_inv in Hat. destruct Hat as [-> _].
  intros [= <- <- <-]. exists kw1. repeat split; reflexivity.
Qed.

Lemma routed_mapping_NoDup (scope : dict string) (kw1 : dict value) :
  NoDup (dict_keys kw1) -> NoDup (dict_keys (routed_mapping scope kw1)).
Proof.
  intro H. unfold routed_mapping.
  now repeat (apply dict_remove_NoDup || apply dict_update_NoDup).
Qed.

Lemma merged_attrs_NoDup (scope : dict string) (attr : value) :
  NoDup (dict_keys scope) -> NoDup (dict_keys (merged_attrs scope attr)).
Proof.
  intro H. destruct attr; simpl; auto. now apply dict_update_NoDup.
Qed.

(** What the routed mapping holds under a key that is neither [name] nor
    [out]: the merged attribute of that name if there is one, else the
    caller's value (the caller's [attr] has been popped). *)
Lemma routed_mapping_get (scope : dict string) (kw1 : dict value) (k : string) :
  NoDup (dict_keys scope) -> k <> "name" -> k <> "out" ->
  dict_get k (routed_mapping scope kw1)
  = match dict_get k (merged_attrs scope (popped "attr" kw1)) with
    | Some s => Some (VStr s)
    | None => if String.eqb k "attr" then None else dict_get k kw1
    end.
Proof.
  intros Hnd Hn Ho. unfold routed_mapping.
  rewrite dict_get_remove_other by congruence.
  rewrite dict_get_remove_other by congruence.
  rewrite dict_get_update.
  - rewrite attr_items_get.
    destruct (dict_get k (merged_attrs scope _)); simpl; [reflexivity |].
    destruct (String.eqb k "attr") eqn:E.
    + apply String.eqb_eq in E. subst k. apply dict_get_remove_same.
    + apply String.eqb_neq in E. apply dict_get_remove_other. congruence.
  - rewrite attr_items_keys. now apply merged_attrs_NoDup.
Qed.

(** A successful variadic call, taken apart. *)
Lemma variadic_call_inv (args : list value) (kws : list (string * value))
      (w w' : world) (v : value) :
  opt_truthy (arr_name c) = true ->
  generated_call py_str numpy_dtype_name func_name handle key_var_num_args
                 c args kws w = (inr v, w') ->
  exists sa kw1 name' counters,
    NoDup (dict_keys kws)
    /\ bind_arguments (call_signature c) args kws = inr (Frame [] args kws)
    /\ canonical_dtype_kwarg numpy_dtype_name c kws = inr kw1
    /\ variadic_plan py_str numpy_dtype_name c (attr_scope w)
                     (Frame [] args kws)
       = inr (sa, routed_mapping (attr_scope w) kw1,
              popped "name"
                (dict_update (dict_remove "attr" kw1)
                   (attr_items
                      (merged_attrs (attr_scope w) (popped "attr" kw1)))))
    /\ NameManager_get
         (popped "name"
            (dict_update (dict_remove "attr" kw1)
               (attr_items (merged_attrs (attr_scope w) (popped "attr" kw1)))))
         (lower func_name) w
       = (inr name',
          World (attr_scope w) counters (created w) (engine_error w))
    /\ w' = World (attr_scope w) counters
                  (created w ++
                   [variadic_request handle key_var_num_args sa
                      (routed_mapping (attr_scope w) kw1) name'])
                  (engine_error w).
Proof.
  intros Hvar. unfold generated_call, call_signature, generated_body.
  rewrite Hvar. unfold bind at 1, lift.
  destruct (bind_arguments (variadic_signature c) args kws) as [e | f] eqn:Hb;
    [discriminate |].
  assert (Ha : str_truthy (match arr_name c with Some a => a | None => "" end)
               = true).
  { destruct (arr_name c); [exact Hvar | discriminate]. }
  unfold variadic_signature in Hb.
  destruct (@bind_variadic_inv _ _ _ _ Ha Hb) as [-> Hnd].
  rewrite variadic_body_plan.
  destruct (variadic_plan _ _ _ _ _) as [e | [[sa K] nm]] eqn:Hp;
    [discriminate |].
  destruct (variadic_plan_inv _ _ _ _ _ Hp) as (kw1 & Hkw & -> & -> & Hsa).
  simpl kwargs_in in Hkw.
  destruct (name_then_create func_name
              (popped "name"
                 (dict_update (dict_remove "attr" kw1)
                    (attr_items
                       (merged_attrs (attr_scope w) (popped "attr" kw1)))))
              (variadic_request handle key_var_num_args sa
                 (routed_mapping (attr_scope w) kw1)) w)
    as (name' & counters & Hrun & Hname).
  rewrite Hrun. destruct (engine_error w (created w) _); [discriminate |].
  intros [= <- <-].
  exists sa, kw1, name', counters. repeat split; auto.
Qed.

End VariadicSteps.

(** ** The keyword-only convention, step by step *)

Section KeywordSteps.

Variable py_str : value -> string.
Variable numpy_dtype_name : value -> exn + string.
Variable func_name : string.
Variable handle : Z.
Variable key_var_num_args : string.
Variable c : classified.

Lemma node_params_keeps_scalars (names : list string) (env : dict value) :
  forall r r', node_params py_str names env r = inr r' ->
               keys r' = keys r /\ vals r' = vals r.
Proof.
  induction names as [| x rest IH]; intros r r'; simpl.
  - intros [= <-]. now split.
  - unfold rbind. destruct (read_local x env) as [e | v]; [discriminate |].
    destruct (is_not_None v); [| apply IH].
    destruct (isinstance_SymbolBase v); [| discriminate].
    intro H. apply IH in H. exact H.
Qed.

Lemma scalar_params_appends (names : list string) (env : dict value) :
  forall r r', scalar_params names env r = inr r' ->
               keys r' = keys r ++ map fst (declared_scalar_items names env)
               /\ vals r' = vals r ++ map snd (declared_scalar_items names env)
               /\ sym_kwargs r' = sym_kwargs r.
Proof.
  induction names as [| x rest IH]; intros r r'; simpl.
  - intros [= <-]. now rewrite !app_nil_r.
  - unfold rbind, read_local.
    destruct (dict_get x env) as [v |]; [| discriminate].
    intro H. apply IH in H. destruct H as (Hk & Hv & Hs).
    destruct (is_not_Null v); simpl in *.
    + rewrite Hk, Hv, Hs, <- !app_assoc. now repeat split.
    + now repeat split.
Qed.

Lemma dtype_param_appends (env : dict value) (r r' : routing) :
  dtype_param numpy_dtype_name c env r = inr r' ->
  exists dt,
    keys r' = keys r ++ map fst dt
    /\ vals r' = vals r ++ map snd dt
    /\ sym_kwargs r' = sym_kwargs r
    /\ ((dt = []
         /\ (dtype_name c = None
             \/ exists d, dtype_name c = Some d
                          /\ dict_get d env = Some VNull))
        \/ exists d x n,
             dtype_name c = Some d /\ dict_get d env = Some x
             /\ x <> VNull /\ numpy_dtype_name x = inr n
             /\ dt = [(d, VStr n)]).
Proof.
  unfold dtype_param, rbind, read_local.
  destruct (dtype_name c) as [d |].
  - destruct (dict_get d env) as [x |] eqn:Hx; [| discriminate].
    destruct (is_not_Null x) eqn:Hn.
    + destruct (numpy_dtype_name x) as [e | n] eqn:Hnp; [discriminate |].
      intros [= <-]. exists [(d, VStr n)]. simpl. repeat split.
      right. exists d, x, n. repeat split; auto.
      intros ->. discriminate.
    + intros [= <-]. exists []. simpl. rewrite !app_nil_r. repeat split.
      left. split; [reflexivity |]. right. exists d. split; [reflexivity |].
      destruct x; try discriminate. exact Hx.
  - intros [= <-]. exists []. simpl. rewrite !app_nil_r. repeat split.
    left. split; [reflexivity | now left].
Qed.

Lemma bind_loop_variables_other (items : list (string * value))
      (env : dict value) (x : string) :
  x <> "k" -> x <> "v" ->
  dict_get x (bind_loop_variables items env) = dict_get x env.
Proof.
  intros Hk Hv. unfold bind_loop_variables.
  destruct (List.last (map Some items) None) as [[k v] |]; [| reflexivity].
  rewrite !dict_get_set_other by congruence. reflexivity.
Qed.

Lemma locals_after_loop_other (env kwargs : dict value) (x : string) :
  x <> "k" -> x <> "v" ->
  x <> "sym_kwargs" -> x <> "keys" -> x <> "vals" ->
  dict_get x (locals_after_loop env kwargs) = dict_get x env.
Proof.
  intros Hk Hv H1 H2 H3. unfold locals_after_loop.
  rewrite bind_loop_variables_other by assumption.
  rewrite !dict_get_set_other by congruence. reflexivity.
Qed.

Lemma keyword_plan_inv (scope : dict string) (f : frame) (r : routing)
      (nm : value) :
  keyword_plan py_str numpy_dtype_name c scope f = inr (r, nm) ->
  exists attr r1 r2,
    dict_get "attr" (locals f) = Some attr
    /\ AttrScope_merge scope attr = inr (merged_attrs scope attr)
    /\ node_params py_str (ndarg_names c)
         (locals_after_loop (locals f)
            (dict_update (kwargs_in f)
               (attr_items (merged_attrs scope attr))))
         (route_kwargs
            (dict_update (kwargs_in f)
               (attr_items (merged_attrs scope attr))) routing_init)
       = inr r1
    /\ scalar_params (kwarg_names c)
         (locals_after_loop (locals f)
            (dict_update (kwargs_in f)
               (attr_items (merged_attrs scope attr)))) r1 = inr r2
    /\ dtype_param numpy_dtype_name c
         (locals_after_loop (locals f)
            (dict_update (kwargs_in f)
               (attr_items (merged_attrs scope attr)))) r2 = inr r
    /\ dict_get "name" (locals f) = Some nm.
Proof.
  unfold keyword_plan, rbind. unfold read_local at 1.
  destruct (dict_get "attr" (locals f)) as [attr |]; [| discriminate].
  destruct (AttrScope_merge scope attr) as [e | attrs] eqn:Hat;
    [discriminate |].
  destruct (AttrScope_merge_inv _ _ _ Hat) as [-> _].
  destruct (node_params py_str (ndarg_names c) _ _) as [e | r1] eqn:H1;
    [discriminate |].
  destruct (scalar_params (kwarg_names c) _ r1) as [e | r2] eqn:H2;
    [discriminate |].
  destruct (dtype_param numpy_dtype_name c _ r2) as [e | r3] eqn:H3;
    [discriminate |].
  unfold read_local.
  rewrite locals_after_loop_other by discriminate.
  destruct (dict_get "name" (locals f)) as [nm' |] eqn:Hn; [| discriminate].
  intros [= <- <-]. exists attr, r1, r2. repeat split; auto.
Qed.

(** A successful keyword-only call, taken apart. *)
Lemma keyword_call_inv (args : list value) (kws : list (string * value))
      (w w' : world) (v : value) :
  opt_truthy (arr_name c) = false ->
  generated_call py_str numpy_dtype_name func_name handle key_var_num_args
                 c args kws w = (inr v, w') ->
  exists f r nm name' counters,
    bind_arguments (call_signature c) args kws = inr f
    /\ keyword_plan py_str numpy_dtype_name c (attr_scope w) f = inr (r, nm)
    /\ NameManager_get nm (lower func_name) w
       = (inr name',
          World (attr_scope w) counters (created w) (engine_error w))
    /\ w' = World (attr_scope w) counters
                  (created w ++ [keyword_request handle r name'])
                  (engine_error w).
Proof.
  intros Hkw. unfold generated_call, generated_body.
  rewrite Hkw. unfold bind at 1, lift.
  destruct (bind_arguments (call_signature c) args kws) as [e | f] eqn:Hb;
    [discriminate |].
  rewrite keyword_body_plan.
  destruct (keyword_plan _ _ _ _ _) as [e | [r nm]] eqn:Hp; [discriminate |].
  destruct (name_then_create func_name nm (keyword_request handle r) w)
    as (name' & counters & Hrun & Hname).
  rewrite Hrun. destruct (engine_error w (created w) _); [discriminate |].
  intros [= <- <-].
  exists f, r, nm, name', counters. repeat split; auto.
Qed.

End KeywordSteps.

(** ** Names *)

Lemma string_of_nat_inj (n m : nat) :
  string_of_nat n = string_of_nat m -> n = m.
Proof.
  unfold string_of_nat. intro H.
  apply DecimalNat.Unsigned.to_uint_inj.
  pose proof (NilEmpty.usu (Nat.to_uint n)) as Hn.
  pose proof (NilEmpty.usu (Nat.to_uint m)) as Hm.
  rewrite H in Hn. congruence.
Qed.

Lemma append_inj_l (p a b : string) : (p ++ a = p ++ b)%string -> a = b.
Proof.
  induction p as [| ch p IH]; simpl; [auto |]. intros [= H]. now apply IH.
Qed.

Lemma NameManager_get_fresh (hint : string) (w : world) :
  NameManager_get VNone hint w
  = (inr (VStr (hint ++ string_of_nat (counter_of hint w))),
     World (attr_scope w)
           (dict_set hint (S (counter_of hint w)) (name_counter w))
           (created w) (engine_error w)).
Proof. reflexivity. Qed.

Lemma fresh_names_differ (hint : string) (n : nat) :
  VStr (hint ++ string_of_nat n) <> VStr (hint ++ string_of_nat (S n)).
Proof.
  intros [= H]. apply append_inj_l, string_of_nat_inj in H. lia.
Qed.

(** ** Claims about classification *)

(** C2, as the code has it.  For declared arguments with non-empty names,
    classification fails, with the assertion's message, exactly when an
    argument classified as node-array-typed is followed later in declaration
    order by another node-typed argument (a single node or a second node
    array).  Arguments named [dtype] and plain scalars may follow the
    node-array argument: classification then succeeds. *)
Theorem classify_fails_iff_node_follows_array :
  forall args : list (string * string),
    Forall (fun a => fst a <> "") args ->
    (node_after_variadic args = true ->
     classify args = inl (AssertionError assert_one_array_msg))
    /\ (node_after_variadic args = false -> exists c, classify args = inr c).
Proof.
  intros args Hnames.
  pose proof (classify_from_raises _ Hnames classified_init) as Hr.
  cbn [arr_name classified_init opt_truthy andb orb] in Hr.
  fold (classify args) in Hr.
  split; intro Hn; rewrite Hn in Hr.
  - destruct (classify args) as [e | c] eqn:Hc; [| discriminate].
    f_equal. eapply classify_from_error. exact Hc.
  - destruct (classify args) as [e | c]; [discriminate | now exists c].
Qed.

Lemma classify_fails_iff_node_follows_array_witness :
  Forall (fun a : string * string => fst a <> "") (info_args Concat_info)
  /\ exists c, classify (info_args Concat_info) = inr c.
Proof.
  assert (H : Forall (fun a : string * string => fst a <> "")
                     (info_args Concat_info))
    by (repeat constructor; discriminate).
  split; [exact H |].
  exact (proj2 (classify_fails_iff_node_follows_array _ H) eq_refl).
Defined.

(** C2 as stated is refuted: the node-array argument of
    [data: Symbol[], dim: int] is not the last declared argument, and
    classification succeeds. *)
Lemma classify_accepts_scalar_after_array :
  variadic_not_last [("data", "Symbol[]"); ("dim", "int")] = true
  /\ several_variadic [("data", "Symbol[]"); ("dim", "int")] = false
  /\ classify [("data", "Symbol[]"); ("dim", "int")]
     = inr (Classified None (Some "data") [SigStar "data"]
                       [SigDefault "dim" VNull] [] ["dim"]).
Proof. repeat split. Qed.

(** C6.  An argument named [dtype] is entered as the dtype scalar whatever
    its type tag says: the step for it never looks at the tag, so it never
    raises, never becomes the array argument and never joins the node
    arguments; and after a successful classification [dtype] is recorded as
    [dtype_name] with the [_Null] default and appears in none of the node
    lists. *)
Theorem dtype_argument_is_always_scalar :
  (forall st atype,
      classify_step st ("dtype", atype)
      = inr (Classified (Some "dtype") (arr_name st) (ndsignature st)
                        (signature st ++ [SigDefault "dtype" VNull])
                        (ndarg_names st) (kwarg_names st)))
  /\ (forall args c atype,
         classify args = inr c ->
         In ("dtype", atype) args ->
         kind_of ("dtype", atype) = DtypeScalar
         /\ dtype_name c = Some "dtype"
         /\ In (SigDefault "dtype" VNull) (signature c)
         /\ ~ In "dtype" (ndarg_names c)
         /\ arr_name c <> Some "dtype"
         /\ (forall d, ~ In (SigDefault "dtype" d) (ndsignature c))
         /\ ~ In (SigStar "dtype") (ndsignature c)).
Proof.
  split.
  - reflexivity.
  - intros args c atype Hc Hin.
    destruct (classify_from_dtype_entered _ _ _ _ Hin Hc) as [Hd Hs].
    destruct (classify_from_keeps_dtype_scalar _ _ _ classified_init_dtype_scalar Hc)
      as (Hnd & _ & Harr & Hsig & Hstar & _).
    repeat split; assumption.
Qed.

Lemma dtype_argument_is_always_scalar_witness :
  let args := [("data", "Symbol[]"); ("dtype", "Symbol[]")] in
  let c := Classified (Some "dtype") (Some "data") [SigStar "data"]
                      [SigDefault "dtype" VNull] [] [] in
  classify args = inr c
  /\ In ("dtype", "Symbol[]") args
  /\ dtype_name c = Some "dtype"
  /\ ~ In "dtype" (ndarg_names c)
  /\ arr_name c <> Some "dtype".
Proof.
  intros args c.
  assert (Hc : classify args = inr c) by reflexivity.
  assert (Hin : In ("dtype", "Symbol[]") args) by (right; left; reflexivity).
  destruct (proj2 dtype_argument_is_always_scalar args c "Symbol[]" Hc Hin)
    as (_ & Hd & _ & Hnd & Harr & _).
  repeat split; assumption.
Defined.

(** ** Claims about the variadic convention *)

Section VariadicRequests.

Variable numpy_dtype_name : value -> exn + string.
Variable handle : Z.
Variable key_var_num_args : string.
Variable c : classified.

Lemma variadic_request_keys (sa : list value) (K : dict value) (nm : value) :
  req_keys (variadic_request handle key_var_num_args sa K nm)
  = map fst (scalar_items K)
    ++ (if str_truthy key_var_num_args && negb (dict_mem key_var_num_args K)
        then [key_var_num_args] else []).
Proof.
  unfold variadic_request, inject_key_var. cbn [req_keys].
  destruct (str_truthy key_var_num_args); simpl.
  - destruct (dict_mem key_var_num_args K); simpl;
      rewrite ?route_kwargs_keys; simpl; now rewrite ?app_nil_r.
  - rewrite route_kwargs_keys. simpl. now rewrite app_nil_r.
Qed.

Lemma variadic_request_vals (sa : list value) (K : dict value) (nm : value) :
  req_vals (variadic_request handle key_var_num_args sa K nm)
  = map snd (scalar_items K)
    ++ (if str_truthy key_var_num_args && negb (dict_mem key_var_num_args K)
        then [VInt (Z.of_nat
                      (List.length sa
                       + List.length
                           (req_kwargs
                              (variadic_request handle key_var_num_args
                                                sa K nm))))]
        else []).
Proof.
  unfold variadic_request, inject_key_var. cbn [req_vals req_kwargs].
  destruct (str_truthy key_var_num_args); simpl.
  - destruct (dict_mem key_var_num_args K); simpl;
      rewrite ?route_kwargs_vals; simpl; now rewrite ?app_nil_r.
  - rewrite route_kwargs_vals. simpl. now rewrite app_nil_r.
Qed.

Lemma variadic_request_args (sa : list value) (K : dict value) (nm : value) :
  req_args (variadic_request handle key_var_num_args sa K nm) = Some sa.
Proof. reflexivity. Qed.

(** A scalar held by the routed mapping is forwarded, under its key and
    once. *)
Lemma variadic_request_forwards (sa : list value) (K : dict value)
      (nm : value) (k : string) (x : value) :
  NoDup (dict_keys K) ->
  dict_get k K = Some x -> isinstance_SymbolBase x = false ->
  In (k, x) (entries (variadic_request handle key_var_num_args sa K nm))
  /\ count_occ string_dec
       (req_keys (variadic_request handle key_var_num_args sa K nm)) k = 1.
Proof.
  intros Hnd Hget Hx.
  assert (Hin : In (k, x) (scalar_items K)).
  { apply scalar_items_In. split; [now apply dict_get_In | exact Hx]. }
  assert (Hmem : dict_mem k K = true) by (unfold dict_mem; now rewrite Hget).
  unfold entries. rewrite variadic_request_keys, variadic_request_vals.
  split.
  - destruct (str_truthy key_var_num_args
              && negb (dict_mem key_var_num_args K)).
    + rewrite combine_app_aligned by now rewrite !length_map.
      apply in_or_app. left. now rewrite combine_map_fst_snd.
    + rewrite !app_nil_r. now rewrite combine_map_fst_snd.
  - rewrite count_occ_app.
    rewrite (count_occ_NoDup_In _ _ (scalar_items_NoDup _ Hnd)).
    + destruct (str_truthy key_var_num_args) eqn:Ht; simpl; [| reflexivity].
      destruct (dict_mem key_var_num_args K) eqn:Hm; simpl; [reflexivity |].
      destruct (string_dec key_var_num_args k) as [-> | _]; [| reflexivity].
      congruence.
    + change k with (fst (k, x)). now apply in_map.
Qed.

Lemma variadic_request_entries_present (sa : list value) (K : dict value)
      (nm : value) :
  dict_mem key_var_num_args K = true ->
  entries (variadic_request handle key_var_num_args sa K nm)
  = scalar_items K.
Proof.
  intro Hm. unfold entries.
  rewrite variadic_request_keys, variadic_request_vals, Hm.
  rewrite andb_false_r, !app_nil_r. apply combine_map_fst_snd.
Qed.

Lemma variadic_request_kwargs (sa : list value) (K : dict value) (nm : value) :
  req_kwargs (variadic_request handle key_var_num_args sa K nm)
  = sym_kwargs (route_kwargs K routing_init).
Proof.
  unfold variadic_request, inject_key_var. cbn [req_kwargs].
  destruct (str_truthy key_var_num_args); [| reflexivity].
  destruct (negb (dict_mem key_var_num_args K)); reflexivity.
Qed.

Lemma popped_canonical (kws kw1 : dict value) (k : string) :
  dtype_name c = None \/ dtype_name c = Some "dtype" ->
  canonical_dtype_kwarg numpy_dtype_name c kws = inr kw1 ->
  k <> "dtype" -> popped k kw1 = popped k kws.
Proof.
  intros Hd Hc Hk.
  destruct (canonical_dtype_kwarg_inv numpy_dtype_name c Hd _ _ Hc)
    as (Hget & _ & _).
  unfold popped, dict_pop. simpl. now rewrite (Hget k Hk).
Qed.

Lemma merged_attrs_keeps_scope (scope : dict string) (attr : value)
      (k : string) (s0 : string) :
  dict_get k scope = Some s0 ->
  exists s, dict_get k (merged_attrs scope attr) = Some s
            /\ (attr = VNone -> s = s0).
Proof.
  intro H.
  destruct (dict_get k (merged_attrs scope attr)) as [s |] eqn:E.
  - exists s. split; [reflexivity |]. intros ->. simpl in E. congruence.
  - exfalso. apply dict_get_None in E. apply E.
    assert (Hin : In k (dict_keys scope)).
    { apply dict_get_In in H. change k with (fst (k, s0)). now apply in_map. }
    destruct attr; simpl; auto. apply dict_keys_update. now left.
Qed.

End VariadicRequests.

Section VariadicClaims.

Variable py_str : value -> string.
Variable numpy_dtype_name : value -> exn + string.
Variable func_name : string.
Variable handle : Z.
Variable key_var_num_args : string.
Variable c : classified.

Let call := generated_call py_str numpy_dtype_name func_name handle
                           key_var_num_args c.


(** C9, as the code has it.  In the variadic convention an attribute of
    the active scope whose name is [key_var_num_args] suppresses the count
    injection, provided the key is not one of the reserved keywords [name]
    and [out]: the merged attributes are folded into the keyword mapping
    before the membership test, so the request carries that key exactly
    once, with the attribute's value, and nothing else under that key.
    A key called [name] or [out] is popped from the mapping after the fold
    and before the test: the attribute is not forwarded and the count is
    injected as the last entry. *)
Theorem scope_attribute_suppresses_count_injection :
  forall (args : list value) (kws : list (string * value))
         (w w' : world) (v : value) (s0 : string),
    opt_truthy (arr_name c) = true ->
    dtype_name c = None \/ dtype_name c = Some "dtype" ->
    NoDup (dict_keys (attr_scope w)) ->
    dict_get key_var_num_args (attr_scope w) = Some s0 ->
    call args kws w = (inr v, w') ->
    exists r s,
      created w' = created w ++ [r]
      /\ dict_get key_var_num_args
           (merged_attrs (attr_scope w) (popped "attr" kws)) = Some s
      /\ (popped "attr" kws = VNone -> s = s0)
      /\ (key_var_num_args <> "name" -> key_var_num_args <> "out" ->
          In (key_var_num_args, VStr s) (entries r)
          /\ count_occ string_dec (req_keys r) key_var_num_args = 1
          /\ (forall x, In (key_var_num_args, x) (entries r) -> x = VStr s))
      /\ (key_var_num_args = "name" \/ key_var_num_args = "out" ->
          exists ks vs sa,
            req_args r = Some sa
            /\ req_keys r = ks ++ [key_var_num_args]
            /\ req_vals r
               = vs ++ [VInt (Z.of_nat (List.length sa
                                        + List.length (req_kwargs r)))]
            /\ List.length ks = List.length vs
            /\ ~ In key_var_num_args ks).
Proof.
  intros args kws w w' v s0 Hvar Hd Hscope Hs0 Hcall.
  destruct (variadic_call_inv py_str numpy_dtype_name func_name handle
              key_var_num_args c args kws w w' v Hvar Hcall)
    as (sa & kw1 & name' & counters & Hnd & _ & Hkw & _ & _ & ->).
  destruct (merged_attrs_keeps_scope (attr_scope w) (popped "attr" kws)
              key_var_num_args s0 Hs0) as (s & Hs & Hs').
  set (K := routed_mapping (attr_scope w) kw1).
  exists (variadic_request handle key_var_num_args sa K name'), s.
  assert (HndK : NoDup (dict_keys K)).
  { apply routed_mapping_NoDup.
    now apply (canonical_dtype_kwarg_inv numpy_dtype_name c Hd _ _ Hkw). }
  split; [reflexivity |]. split; [exact Hs |]. split; [exact Hs' |]. split.
  - intros Hn Ho.
    assert (HK : dict_get key_var_num_args K = Some (VStr s)).
    { unfold K. rewrite routed_mapping_get by assumption.
      rewrite (popped_canonical numpy_dtype_name c kws kw1 "attr" Hd Hkw)
        by discriminate.
      now rewrite Hs. }
    destruct (variadic_request_forwards handle key_var_num_args sa _ name'
                _ _ HndK HK eq_refl) as [Hin Hcount].
    repeat split; auto.
    intros x Hx.
    rewrite variadic_request_entries_present in Hx
      by (unfold dict_mem; now rewrite HK).
    apply scalar_items_In in Hx. destruct Hx as [Hx _].
    apply (dict_In_get _ _ _ HndK) in Hx. congruence.
  - intro Hkey.
    assert (HK : dict_get key_var_num_args K = None).
    { unfold K, routed_mapping. destruct Hkey as [-> | ->].
      - rewrite dict_get_remove_other by discriminate.
        apply dict_get_remove_same.
      - apply dict_get_remove_same. }
    assert (Hm : dict_mem key_var_num_args K = false)
      by (unfold dict_mem; now rewrite HK).
    assert (Ht : str_truthy key_var_num_args = true)
      by (destruct Hkey as [-> | ->]; reflexivity).
    exists (map fst (scalar_items K)), (map snd (scalar_items K)), sa.
    rewrite variadic_request_keys, variadic_request_vals, Ht, Hm. simpl.
    repeat split; [now rewrite !length_map |].
    intro Hin. apply scalar_items_keys_incl in Hin.
    apply dict_get_None in HK. contradiction.
Qed.

(** C3, as the code has it.  For a variadic operator declaring a key
    [key_var_num_args] (not a reserved keyword, not the declared dtype)
    that the merged attribute scope does not define: if the caller's
    keywords do not supply the key, the call appends as last entry the
    key with the integer count of the positional nodes plus the keyword
    nodes of the request; if the caller supplies it, nothing is injected
    and the caller's value is handed on unchanged, as the only entry
    under that key when it is a scalar, as a keyword node when it is a
    node reference. *)
Theorem key_variadic_count_injection :
  forall (args : list value) (kws : list (string * value))
         (w w' : world) (v : value),
    opt_truthy (arr_name c) = true ->
    str_truthy key_var_num_args = true ->
    dtype_name c = None
    \/ (dtype_name c = Some "dtype" /\ key_var_num_args <> "dtype") ->
    key_var_num_args <> "attr" ->
    key_var_num_args <> "name" -> key_var_num_args <> "out" ->
    NoDup (dict_keys (attr_scope w)) ->
    dict_get key_var_num_args
      (merged_attrs (attr_scope w) (popped "attr" kws)) = None ->
    call args kws w = (inr v, w') ->
    exists r sa,
      created w' = created w ++ [r]
      /\ req_args r = Some sa
      /\ (arr_name c <> Some "sym_args" -> sa = args)
      /\ (dict_get key_var_num_args kws = None ->
          exists ks vs,
            req_keys r = ks ++ [key_var_num_args]
            /\ req_vals r
               = vs ++ [VInt (Z.of_nat (List.length sa
                                        + List.length (req_kwargs r)))]
            /\ List.length ks = List.length vs
            /\ ~ In key_var_num_args ks)
      /\ (forall x,
             dict_get key_var_num_args kws = Some x ->
             (isinstance_SymbolBase x = false ->
              In (key_var_num_args, x) (entries r)
              /\ count_occ string_dec (req_keys r) key_var_num_args = 1
              /\ (forall y, In (key_var_num_args, y) (entries r) -> y = x))
             /\ (isinstance_SymbolBase x = true ->
                 dict_get key_var_num_args (req_kwargs r) = Some x
                 /\ ~ In key_var_num_args (req_keys r))).
Proof.
  intros args kws w w' v Hvar Hkey Hd Ha Hn Ho Hscope Hnone Hcall.
  assert (Hd' : dtype_name c = None \/ dtype_name c = Some "dtype") by tauto.
  destruct (variadic_call_inv py_str numpy_dtype_name func_name handle
              key_var_num_args c args kws w w' v Hvar Hcall)
    as (sa & kw1 & name' & counters & Hnd & _ & Hkw & Hplan & _ & ->).
  set (K := routed_mapping (attr_scope w) kw1) in *.
  exists (variadic_request handle key_var_num_args sa K name'), sa.
  assert (HndK : NoDup (dict_keys K)).
  { apply routed_mapping_NoDup.
    now apply (canonical_dtype_kwarg_inv numpy_dtype_name c Hd' _ _ Hkw). }
  assert (Hkw1 : dict_get key_var_num_args kw1
                 = dict_get key_var_num_args kws).
  { destruct (canonical_dtype_kwarg_inv numpy_dtype_name c Hd' _ _ Hkw)
      as (Hget & Hsame & _).
    destruct Hd as [Hd | [_ Hd]]; [now rewrite (Hsame Hd) | now apply Hget]. }
  assert (HK : dict_get key_var_num_args K = dict_get key_var_num_args kws).
  { unfold K. rewrite routed_mapping_get by assumption.
    rewrite (popped_canonical numpy_dtype_name c kws kw1 "attr" Hd' Hkw) by discriminate.
    rewrite Hnone.
    destruct (String.eqb key_var_num_args "attr") eqn:E; [| exact Hkw1].
    apply String.eqb_eq in E. contradiction. }
  split; [reflexivity |]. split; [reflexivity |]. split.
  { intro Hsa.
    destruct (variadic_plan_inv py_str numpy_dtype_name c _ _ _ _ _ Hplan)
      as (_ & _ & _ & _ & Hcol).
    cbn [star_args] in Hcol.
    destruct (arr_name c) as [a |] eqn:Harr; [| discriminate].
    destruct (String.eqb a "sym_args") eqn:E.
    - apply String.eqb_eq in E. congruence.
    - now apply collect_sym_args_ok in Hcol. }
  split.
  - intro Hkws. rewrite Hkws in HK.
    assert (Hm : dict_mem key_var_num_args K = false)
      by (unfold dict_mem; now rewrite HK).
    exists (map fst (scalar_items K)), (map snd (scalar_items K)).
    rewrite variadic_request_keys, variadic_request_vals, Hkey, Hm. simpl.
    repeat split; [now rewrite !length_map |].
    intro Hin. apply scalar_items_keys_incl in Hin.
    apply dict_get_None in HK. contradiction.
  - intros x Hx. rewrite Hx in HK. split; intro Hsym.
    + destruct (variadic_request_forwards handle key_var_num_args sa K name' _ _ HndK HK Hsym)
        as [Hin Hcount].
      repeat split; auto. intros y Hy.
      rewrite variadic_request_entries_present in Hy
        by (unfold dict_mem; now rewrite HK).
      apply scalar_items_In in Hy. destruct Hy as [Hy _].
      apply (dict_In_get _ _ _ HndK) in Hy. congruence.
    + split.
      * rewrite variadic_request_kwargs.
        apply route_kwargs_sym_get; auto. now apply dict_get_In.
      * rewrite variadic_request_keys.
        assert (Hm : dict_mem key_var_num_args K = true)
          by (unfold dict_mem; now rewrite HK).
        rewrite Hm, andb_false_r, app_nil_r.
        intro Hin. apply in_map_iff in Hin.
        destruct Hin as ([k y] & Hk & Hin). simpl in Hk. subst k.
        apply scalar_items_In in Hin. destruct Hin as [Hin Hy].
        apply (dict_In_get _ _ _ HndK) in Hin. congruence.
Qed.

End VariadicClaims.

(** ** Claims about the keyword-only convention and about both *)

Section CallClaims.

Variable py_str : value -> string.
Variable numpy_dtype_name : value -> exn + string.
Variable func_name : string.
Variable handle : Z.
Variable key_var_num_args : string.
Variable c : classified.

Let call := generated_call py_str numpy_dtype_name func_name handle
                           key_var_num_args c.

Lemma popped_get (k : string) (d : dict value) (x : value) :
  dict_get k d = Some x -> popped k d = x.
Proof. unfold popped, dict_pop. simpl. now intros ->. Qed.

Lemma popped_same (k : string) (d d' : dict value) :
  dict_get k d = dict_get k d' -> popped k d = popped k d'.
Proof. unfold popped, dict_pop. simpl. now intros ->. Qed.

(** The entries of a keyword-only request: the scalars of the open
    keyword tail, then the declared scalars, then the dtype. *)
Lemma keyword_plan_layout (scope : dict string) (f : frame) (r : routing)
      (nm : value) :
  keyword_plan py_str numpy_dtype_name c scope f = inr (r, nm) ->
  let kwargs := dict_update (kwargs_in f)
                  (attr_items (merged_attrs scope (popped "attr" (locals f)))) in
  let env := locals_after_loop (locals f) kwargs in
  exists dt,
    keys r = map fst (scalar_items kwargs)
             ++ map fst (declared_scalar_items (kwarg_names c) env)
             ++ map fst dt
    /\ vals r = map snd (scalar_items kwargs)
                ++ map snd (declared_scalar_items (kwarg_names c) env)
                ++ map snd dt
    /\ ((dt = []
         /\ (dtype_name c = None
             \/ exists d, dtype_name c = Some d
                          /\ dict_get d env = Some VNull))
        \/ exists d x n,
             dtype_name c = Some d /\ dict_get d env = Some x
             /\ x <> VNull /\ numpy_dtype_name x = inr n
             /\ dt = [(d, VStr n)]).
Proof.
  intro Hp.
  destruct (keyword_plan_inv py_str numpy_dtype_name c _ _ _ _ Hp)
    as (attr & r1 & r2 & Hattr & _ & H1 & H2 & H3 & _).
  rewrite (popped_get _ _ _ Hattr). cbv zeta.
  apply node_params_keeps_scalars in H1. destruct H1 as [Hk1 Hv1].
  apply scalar_params_appends in H2. destruct H2 as (Hk2 & Hv2 & _).
  apply dtype_param_appends in H3.
  destruct H3 as (dt & Hk3 & Hv3 & _ & Hdt).
  exists dt. rewrite Hk3, Hv3, Hk2, Hv2, Hk1, Hv1.
  rewrite route_kwargs_keys, route_kwargs_vals. simpl.
  rewrite <- !app_assoc. repeat split; auto.
Qed.

Lemma keyword_only_layout_of_call :
  forall (args : list value) (kws : list (string * value))
         (w w' : world) (v : value),
    opt_truthy (arr_name c) = false ->
    call args kws w = (inr v, w') ->
    exists r f,
      created w' = created w ++ [r]
      /\ bind_arguments (full_signature c) args kws = inr f
      /\ req_args r = None
      /\ exists dt,
           req_keys r
           = map fst
               (scalar_items
                  (dict_update (kwargs_in f)
                     (attr_items (merged_attrs (attr_scope w)
                                               (explicit_attr c f)))))
             ++ map fst
                  (declared_scalar_items (kwarg_names c)
                     (locals_after_loop (locals f)
                        (dict_update (kwargs_in f)
                           (attr_items (merged_attrs (attr_scope w)
                                                     (explicit_attr c f))))))
             ++ map fst dt
           /\ req_vals r
              = map snd
                  (scalar_items
                     (dict_update (kwargs_in f)
                        (attr_items (merged_attrs (attr_scope w)
                                                  (explicit_attr c f)))))
                ++ map snd
                     (declared_scalar_items (kwarg_names c)
                        (locals_after_loop (locals f)
                           (dict_update (kwargs_in f)
                              (attr_items (merged_attrs (attr_scope w)
                                                        (explicit_attr c f))))))
                ++ map snd dt
           /\ ((dt = []
                /\ (dtype_name c = None
                    \/ exists d,
                         dtype_name c = Some d
                         /\ dict_get d
                              (locals_after_loop (locals f)
                                 (dict_update (kwargs_in f)
                                    (attr_items
                                       (merged_attrs (attr_scope w)
                                                     (explicit_attr c f)))))
                            = Some VNull))
               \/ exists d x n,
                    dtype_name c = Some d
                    /\ dict_get d
                         (locals_after_loop (locals f)
                            (dict_update (kwargs_in f)
                               (attr_items
                                  (merged_attrs (attr_scope w)
                                                (explicit_attr c f)))))
                       = Some x
                    /\ x <> VNull /\ numpy_dtype_name x = inr n
                    /\ dt = [(d, VStr n)]).
Proof.
  intros args kws w w' v Hkw Hcall.
  destruct (keyword_call_inv py_str numpy_dtype_name func_name handle
              key_var_num_args c args kws w w' v Hkw Hcall)
    as (f & r & nm & name' & counters & Hb & Hp & _ & ->).
  exists (keyword_request handle r name'), f.
  unfold call_signature in Hb. rewrite Hkw in Hb.
  split; [reflexivity |]. split; [exact Hb |]. split; [reflexivity |].
  unfold explicit_attr. rewrite Hkw.
  exact (keyword_plan_layout _ _ _ _ Hp).
Qed.

(** C10.  In the keyword-only convention the positional-nodes argument
    of the request is [None], and the keys and values are laid out in
    three runs: first the scalar entries of the open keyword tail (the
    caller's undeclared keywords with the merged attributes folded in),
    then the declared scalar parameters that are not [_Null], in
    declaration order, and last, if there is one, the dtype entry with
    the canonical type name. *)
Theorem keyword_only_request_layout :
  forall (args : list value) (kws : list (string * value))
         (w w' : world) (v : value),
    opt_truthy (arr_name c) = false ->
    call args kws w = (inr v, w') ->
    exists r f,
      created w' = created w ++ [r]
      /\ bind_arguments (full_signature c) args kws = inr f
      /\ req_args r = None
      /\ let kwargs := dict_update (kwargs_in f)
                         (attr_items (merged_attrs (attr_scope w)
                                                   (explicit_attr c f))) in
         let env := locals_after_loop (locals f) kwargs in
         exists dt,
           req_keys r
           = map fst (scalar_items kwargs)
             ++ map fst (declared_scalar_items (kwarg_names c) env)
             ++ map fst dt
           /\ req_vals r
              = map snd (scalar_items kwargs)
                ++ map snd (declared_scalar_items (kwarg_names c) env)
                ++ map snd dt
           /\ ((dt = []
                /\ (dtype_name c = None
                    \/ exists d, dtype_name c = Some d
                                 /\ dict_get d env = Some VNull))
               \/ exists d x n,
                    dtype_name c = Some d /\ dict_get d env = Some x
                    /\ x <> VNull /\ numpy_dtype_name x = inr n
                    /\ dt = [(d, VStr n)]).
Proof.
  intros args kws w w' v Hkw Hcall.
  destruct (keyword_call_inv py_str numpy_dtype_name func_name handle
              key_var_num_args c args kws w w' v Hkw Hcall)
    as (f & r & nm & name' & counters & Hb & Hp & _ & ->).
  exists (keyword_request handle r name'), f.
  unfold call_signature in Hb. rewrite Hkw in Hb.
  split; [reflexivity |]. split; [exact Hb |]. split; [reflexivity |].
  unfold explicit_attr. rewrite Hkw.
  exact (keyword_plan_layout _ _ _ _ Hp).
Qed.

Lemma declared_scalar_items_In (names : list string) (env : dict value)
      (x : string) (v : value) :
  In x names -> dict_get x env = Some v -> v <> VNull ->
  In (x, v) (declared_scalar_items names env).
Proof.
  intros Hin Hget Hv.
  induction names as [| y rest IH]; simpl; [destruct Hin |].
  destruct Hin as [-> | Hin].
  - rewrite Hget. destruct v; try (now left). congruence.
  - destruct (dict_get y env) as [u |]; [| now apply IH].
    destruct (is_not_Null u); [right |]; now apply IH.
Qed.

(** The code emitted for a declared scalar appends whatever its variable
    holds, node references included: there is no [isinstance] test on this
    path. *)
Lemma declared_scalar_is_forwarded_unchecked :
  forall (args : list value) (kws : list (string * value))
         (w w' : world) (v : value),
    opt_truthy (arr_name c) = false ->
    call args kws w = (inr v, w') ->
    exists r f,
      created w' = created w ++ [r]
      /\ bind_arguments (full_signature c) args kws = inr f
      /\ forall x u,
           In x (kwarg_names c) ->
           dict_get x
             (locals_after_loop (locals f)
                (dict_update (kwargs_in f)
                   (attr_items (merged_attrs (attr_scope w)
                                             (explicit_attr c f)))))
           = Some u ->
           u <> VNull ->
           In (x, u) (entries r).
Proof.
  intros args kws w w' v Hkw Hcall.
  destruct (keyword_only_layout_of_call args kws w w' v Hkw Hcall)
    as (r & f & Hw & Hb & _ & dt & Hkeys & Hvals & _).
  exists r, f. split; [exact Hw |]. split; [exact Hb |].
  intros x u Hin Hget Hu. unfold entries. rewrite Hkeys, Hvals.
  rewrite combine_app_aligned by now rewrite !length_map.
  apply in_or_app. right.
  rewrite combine_app_aligned by now rewrite !length_map.
  apply in_or_app. left. rewrite combine_map_fst_snd.
  now apply declared_scalar_items_In.
Qed.

Lemma bind_loop_variables_last (pre : list (string * value)) (k0 : string)
      (v0 : value) (env : dict value) :
  dict_get "k" (bind_loop_variables (pre ++ [(k0, v0)]) env)
  = Some (VStr k0).
Proof.
  unfold bind_loop_variables. rewrite map_app. simpl. rewrite last_last.
  rewrite dict_get_set_other by discriminate. apply dict_get_set_same.
Qed.

(** The loop variable [k] shadows a declared scalar of that name: when the
    folded keyword mapping is not empty, the entry under the key [k]
    carries the last key of the mapping. *)
Lemma loop_variable_captures_declared_scalar :
  forall (args : list value) (kws : list (string * value))
         (w w' : world) (v : value),
    opt_truthy (arr_name c) = false ->
    In "k" (kwarg_names c) ->
    call args kws w = (inr v, w') ->
    exists r f,
      created w' = created w ++ [r]
      /\ bind_arguments (full_signature c) args kws = inr f
      /\ forall pre k0 v0,
           dict_update (kwargs_in f)
             (attr_items (merged_attrs (attr_scope w) (explicit_attr c f)))
           = pre ++ [(k0, v0)] ->
           In ("k", VStr k0) (entries r).
Proof.
  intros args kws w w' v Hkw Hk Hcall.
  destruct (declared_scalar_is_forwarded_unchecked args kws w w' v Hkw Hcall)
    as (r & f & Hw & Hb & Hfwd).
  exists r, f. split; [exact Hw |]. split; [exact Hb |].
  intros pre k0 v0 Hlast. apply Hfwd; [exact Hk | | discriminate].
  unfold locals_after_loop. rewrite Hlast. apply bind_loop_variables_last.
Qed.

End CallClaims.

Section BothConventions.

Variable py_str : value -> string.
Variable numpy_dtype_name : value -> exn + string.
Variable func_name : string.
Variable handle : Z.
Variable key_var_num_args : string.
Variable c : classified.

Let call := generated_call py_str numpy_dtype_name func_name handle
                           key_var_num_args c.

Lemma variadic_request_entry_unique (sa : list value) (K : dict value)
      (nm : value) (k : string) (x y : value) :
  NoDup (dict_keys K) -> dict_get k K = Some y ->
  In (k, x) (entries (variadic_request handle key_var_num_args sa K nm)) ->
  x = y.
Proof.
  intros Hnd Hget. unfold entries.
  rewrite variadic_request_keys, variadic_request_vals.
  destruct (str_truthy key_var_num_args
            && negb (dict_mem key_var_num_args K)) eqn:Hb.
  - rewrite combine_app_aligned by now rewrite !length_map.
    rewrite combine_map_fst_snd. intro Hin.
    apply in_app_or in Hin. destruct Hin as [Hin | [[= <- _] | []]].
    + apply scalar_items_In in Hin. destruct Hin as [Hin _].
      apply (dict_In_get _ _ _ Hnd) in Hin. congruence.
    + apply andb_true_iff in Hb. destruct Hb as [_ Hb].
      unfold dict_mem in Hb. now rewrite Hget in Hb.
  - rewrite !app_nil_r, combine_map_fst_snd. intro Hin.
    apply scalar_items_In in Hin. destruct Hin as [Hin _].
    apply (dict_In_get _ _ _ Hnd) in Hin. congruence.
Qed.

(** Whatever the call, the two lists handed to the primitive have the
    same length: every [keys.append] comes with one [vals.append]. *)
Lemma keys_vals_same_length :
  forall (args : list value) (kws : list (string * value))
         (w w' : world) (v : value),
    call args kws w = (inr v, w') ->
    exists r,
      created w' = created w ++ [r]
      /\ List.length (req_keys r) = List.length (req_vals r).
Proof.
  intros args kws w w' v Hcall.
  destruct (opt_truthy (arr_name c)) eqn:Hvar.
  - destruct (variadic_call_inv py_str numpy_dtype_name func_name handle
                key_var_num_args c args kws w w' v Hvar Hcall)
      as (sa & kw1 & name' & counters & _ & _ & _ & _ & _ & ->).
    eexists. split; [reflexivity |].
    rewrite variadic_request_keys, variadic_request_vals.
    rewrite !length_app, !length_map.
    now destruct (str_truthy key_var_num_args && negb (dict_mem _ _)).
  - destruct (keyword_call_inv py_str numpy_dtype_name func_name handle
                key_var_num_args c args kws w w' v Hvar Hcall)
      as (f & r & nm & name' & counters & _ & Hp & _ & ->).
    eexists. split; [reflexivity |].
    destruct (keyword_plan_layout py_str numpy_dtype_name c _ _ _ _ Hp)
      as (dt & Hkeys & Hvals & _).
    cbn [keyword_request req_keys req_vals]. rewrite Hkeys, Hvals.
    now rewrite !length_app, !length_map.
Qed.

(** In the variadic convention no node reference reaches [vals]: every
    keyword goes through the [isinstance] test of the routing loop. *)
Lemma variadic_vals_hold_no_node :
  forall (args : list value) (kws : list (string * value))
         (w w' : world) (v : value),
    opt_truthy (arr_name c) = true ->
    call args kws w = (inr v, w') ->
    exists r,
      created w' = created w ++ [r]
      /\ Forall (fun x => isinstance_SymbolBase x = false) (req_vals r).
Proof.
  intros args kws w w' v Hvar Hcall.
  destruct (variadic_call_inv py_str numpy_dtype_name func_name handle
              key_var_num_args c args kws w w' v Hvar Hcall)
    as (sa & kw1 & name' & counters & _ & _ & _ & _ & _ & ->).
  eexists. split; [reflexivity |].
  rewrite variadic_request_vals. apply Forall_app. split.
  - apply scalar_items_no_node.
  - destruct (str_truthy key_var_num_args && negb (dict_mem _ _));
      repeat constructor.
Qed.

Lemma declared_scalar_items_names (names : list string) (env : dict value)
      (x : string) :
  In x (map fst (declared_scalar_items names env)) -> In x names.
Proof.
  induction names as [| y rest IH]; simpl; [intros [] |].
  destruct (dict_get y env) as [u |]; [| intro H; right; now apply IH].
  destruct (is_not_Null u); [| intro H; right; now apply IH].
  simpl. intros [-> | H]; [now left | right; now apply IH].
Qed.

(** C4, as the code has it.  The attributes of the active scope merged
    with the explicit [attr] mapping (the explicit value winning on a
    conflict) are folded into the open keyword mapping by [update]: every
    merged attribute is forwarded as a scalar entry with the attribute's
    value, whether or not the caller put a keyword of that name into that
    mapping.  In the variadic convention, where every keyword is in the
    open mapping, that entry is the only one under its key (the reserved
    keywords [name] and [out], which the body pops, excepted).  In the
    keyword-only convention the entries are those of the open mapping,
    where the attribute's entry is the only one under its key, followed by
    those of the declared scalar parameters: a declared scalar of the
    attribute's name that the caller set is forwarded too, after the
    attribute, and a name that is neither a declared scalar nor the dtype
    has no further entry. *)
Theorem merged_attributes_are_forwarded :
  (forall (scope d : dict string) (k : string),
      NoDup (dict_keys d) ->
      dict_get k (merged_attrs scope (VAttrs d))
      = match dict_get k d with
        | Some s => Some s
        | None => dict_get k scope
        end)
  /\ (forall (args : list value) (kws : list (string * value)) (f : frame)
             (w w' : world) (v : value) (k s : string),
         dtype_name c = None \/ dtype_name c = Some "dtype" ->
         NoDup (dict_keys (attr_scope w)) ->
         bind_arguments (call_signature c) args kws = inr f ->
         dict_get k (merged_attrs (attr_scope w) (explicit_attr c f))
         = Some s ->
         (opt_truthy (arr_name c) = true -> k <> "name" /\ k <> "out") ->
         call args kws w = (inr v, w') ->
         exists r,
           created w' = created w ++ [r]
           /\ In (k, VStr s) (entries r)
           /\ (opt_truthy (arr_name c) = true ->
               count_occ string_dec (req_keys r) k = 1
               /\ forall x, In (k, x) (entries r) -> x = VStr s)
           /\ (opt_truthy (arr_name c) = false ->
               exists tail declared,
                 entries r = tail ++ declared
                 /\ In (k, VStr s) tail
                 /\ count_occ string_dec (map fst tail) k = 1
                 /\ (forall x, In (k, x) tail -> x = VStr s)
                 /\ (forall u,
                        In k (kwarg_names c) ->
                        dict_get k
                          (locals_after_loop (locals f)
                             (dict_update (kwargs_in f)
                                (attr_items
                                   (merged_attrs (attr_scope w)
                                                 (explicit_attr c f)))))
                        = Some u ->
                        u <> VNull ->
                        In (k, u) declared)
                 /\ (~ In k (kwarg_names c) -> dtype_name c <> Some k ->
                     ~ In k (map fst declared)))).
Proof.
  split.
  - intros scope d k Hnd. simpl. now apply dict_get_update.
  - intros args kws f w w' v k s Hd Hscope Hb Hk Hres Hcall.
    destruct (opt_truthy (arr_name c)) eqn:Hvar.
    + destruct (Hres eq_refl) as [Hn Ho].
      destruct (variadic_call_inv py_str numpy_dtype_name func_name handle
                  key_var_num_args c args kws w w' v Hvar Hcall)
        as (sa & kw1 & name' & counters & Hnd & Hb' & Hkw & _ & _ & ->).
      rewrite Hb in Hb'. injection Hb' as ->.
      unfold explicit_attr in Hk. rewrite Hvar in Hk. cbn [kwargs_in] in Hk.
      set (K := routed_mapping (attr_scope w) kw1).
      assert (HK : dict_get k K = Some (VStr s)).
      { unfold K. rewrite routed_mapping_get by assumption.
        rewrite (popped_canonical numpy_dtype_name c kws kw1 "attr" Hd Hkw)
          by discriminate.
        now rewrite Hk. }
      assert (HndK : NoDup (dict_keys K)).
      { apply routed_mapping_NoDup.
        now apply (canonical_dtype_kwarg_inv numpy_dtype_name c Hd _ _ Hkw). }
      destruct (variadic_request_forwards handle key_var_num_args sa K name'
                  k (VStr s) HndK HK eq_refl) as [Hin Hcount].
      exists (variadic_request handle key_var_num_args sa K name').
      split; [reflexivity |]. split; [exact Hin |].
      split; [| discriminate]. intros _. split; [exact Hcount |].
      intros x Hx. eapply variadic_request_entry_unique; eassumption.
    + destruct (keyword_call_inv py_str numpy_dtype_name func_name handle
                  key_var_num_args c args kws w w' v Hvar Hcall)
        as (f' & r & nm & name' & counters & Hb' & Hp & _ & ->).
      rewrite Hb in Hb'. injection Hb' as <-.
      unfold explicit_attr in *. rewrite Hvar in *.
      exists (keyword_request handle r name').
      destruct (keyword_plan_layout py_str numpy_dtype_name c _ _ _ _ Hp)
        as (dt & Hkeys & Hvals & Hdt).
      set (K := dict_update (kwargs_in f)
                  (attr_items
                     (merged_attrs (attr_scope w) (popped "attr" (locals f)))))
        in *.
      set (env := locals_after_loop (locals f) K) in *.
      assert (HndK : NoDup (dict_keys K)).
      { apply dict_update_NoDup. exact (bind_arguments_NoDup _ _ _ _ Hb). }
      assert (HK : dict_get k K = Some (VStr s)).
      { unfold K. rewrite dict_get_update.
        - now rewrite attr_items_get, Hk.
        - rewrite attr_items_keys. now apply merged_attrs_NoDup. }
      assert (Htail : In (k, VStr s) (scalar_items K)).
      { apply scalar_items_In. split; [now apply dict_get_In | reflexivity]. }
      assert (Hentries :
                entries (keyword_request handle r name')
                = scalar_items K
                  ++ (declared_scalar_items (kwarg_names c) env ++ dt)).
      { unfold entries. cbn [keyword_request req_keys req_vals].
        rewrite Hkeys, Hvals.
        rewrite combine_app_aligned by now rewrite !length_map.
        rewrite combine_app_aligned by now rewrite !length_map.
        now rewrite !combine_map_fst_snd. }
      split; [reflexivity |]. split.
      { rewrite Hentries. apply in_or_app. now left. }
      split; [discriminate |]. intros _.
      exists (scalar_items K),
             (declared_scalar_items (kwarg_names c) env ++ dt).
      split; [exact Hentries |]. split; [exact Htail |]. split.
      { apply count_occ_NoDup_In; [now apply scalar_items_NoDup |].
        change k with (fst (k, VStr s)). now apply in_map. }
      split.
      { intros x Hx. apply scalar_items_In in Hx. destruct Hx as [Hx _].
        apply (dict_In_get _ _ _ HndK) in Hx. congruence. }
      split.
      { intros u Hin Hu Hnull. apply in_or_app. left.
        now apply declared_scalar_items_In. }
      intros Hnot Hdn Hin. rewrite map_app in Hin.
      apply in_app_or in Hin. destruct Hin as [Hin | Hin].
      * apply Hnot. exact (declared_scalar_items_names _ _ _ Hin).
      * destruct Hdt as [[-> _] | (d & x & n & Hdname & _ & _ & _ & ->)];
          [destruct Hin |].
        simpl in Hin. destruct Hin as [<- | []]. now apply Hdn.
Qed.

(** C7, as the code has it.  Two calls of the same generated function,
    one after the other, with the same arguments, under the same attribute
    scope, with no name given by the caller and, in the variadic
    convention, no attribute called [name] in the merged scope (the
    variadic body pops [name] after the fold, so such an attribute would
    be the requested name of both calls).  If the first call returns, the
    second hands the creation primitive a request with another resolved
    name and the same keys and values (and the same node arguments); it
    returns the new node unless the engine refuses that request, in which
    case the engine's error is raised and nothing is created. *)
Theorem repeated_call_fresh_name_same_scalars :
  forall (args : list value) (kws : list (string * value)) (f : frame)
         (w w1 : world) (v1 : value),
    dtype_name c = None \/ dtype_name c = Some "dtype" ->
    bind_arguments (call_signature c) args kws = inr f ->
    name_argument c f = VNone ->
    (opt_truthy (arr_name c) = true ->
     dict_get "name" (merged_attrs (attr_scope w) (explicit_attr c f))
     = None) ->
    call args kws w = (inr v1, w1) ->
    exists r1 r2 counters,
      created w1 = created w ++ [r1]
      /\ attr_scope w1 = attr_scope w
      /\ call args kws w1
         = match engine_error w1 (created w1) r2 with
           | Some e =>
               (inl e,
                World (attr_scope w1) counters (created w1)
                      (engine_error w1))
           | None =>
               (inr (VSym (List.length (created w1))),
                World (attr_scope w1) counters (created w1 ++ [r2])
                      (engine_error w1))
           end
      /\ req_name r1 <> req_name r2
      /\ req_keys r1 = req_keys r2
      /\ req_vals r1 = req_vals r2
      /\ req_args r1 = req_args r2
      /\ req_kwargs r1 = req_kwargs r2.
Proof.
  intros args kws f w w1 v1 Hd Hb Hname Hscope Hcall.
  set (hint := lower func_name).
  set (n := counter_of hint w).
  destruct (opt_truthy (arr_name c)) eqn:Hvar.
  - destruct (variadic_call_inv py_str numpy_dtype_name func_name handle
                key_var_num_args c args kws w w1 v1 Hvar Hcall)
      as (sa & kw1 & name' & counters & Hnd & Hb' & Hkw & Hplan & Hnm & ->).
    rewrite Hb in Hb'. injection Hb' as ->.
    unfold name_argument in Hname. rewrite Hvar in Hname.
    unfold explicit_attr in Hscope. rewrite Hvar in Hscope.
    cbn [kwargs_in] in Hname, Hscope. specialize (Hscope eq_refl).
    assert (Hnone :
              popped "name"
                (dict_update (dict_remove "attr" kw1)
                   (attr_items
                      (merged_attrs (attr_scope w) (popped "attr" kw1))))
              = VNone).
    { rewrite <- Hname. apply popped_same.
      rewrite (popped_canonical numpy_dtype_name c kws kw1 "attr" Hd Hkw)
        by discriminate.
      rewrite dict_get_update_absent
        by (rewrite attr_items_keys; now apply dict_get_None).
      rewrite dict_get_remove_other by discriminate.
      now apply (canonical_dtype_kwarg_inv numpy_dtype_name c Hd _ _ Hkw). }
    rewrite Hnone in Hplan, Hnm.
    rewrite NameManager_get_fresh in Hnm. injection Hnm as <- <-.
    fold hint n.
    set (K := routed_mapping (attr_scope w) kw1) in *.
    exists (variadic_request handle key_var_num_args sa K
              (VStr (hint ++ string_of_nat n))),
           (variadic_request handle key_var_num_args sa K
              (VStr (hint ++ string_of_nat (S n)))).
    eexists.
    split; [reflexivity |]. split; [reflexivity |]. split.
    { unfold call, generated_call. unfold bind at 1, lift.
      rewrite Hb. unfold generated_body. rewrite Hvar.
      rewrite variadic_body_plan. cbn [attr_scope]. rewrite Hplan.
      unfold bind. rewrite NameManager_get_fresh.
      unfold counter_of at 1. cbn [name_counter].
      rewrite dict_get_set_same. unfold _symbol_creator.
      cbn [created attr_scope name_counter engine_error]. fold K.
      destruct (engine_error w _ _); reflexivity. }
    split; [apply fresh_names_differ |]. repeat split.
  - destruct (keyword_call_inv py_str numpy_dtype_name func_name handle
                key_var_num_args c args kws w w1 v1 Hvar Hcall)
      as (f' & r & nm & name' & counters & Hb' & Hplan & Hnm & ->).
    rewrite Hb in Hb'. injection Hb' as <-.
    unfold name_argument in Hname. rewrite Hvar in Hname.
    destruct (keyword_plan_inv py_str numpy_dtype_name c _ _ _ _ Hplan)
      as (_ & _ & _ & _ & _ & _ & _ & _ & Hn).
    rewrite (popped_get _ _ _ Hn) in Hname. subst nm.
    rewrite NameManager_get_fresh in Hnm. injection Hnm as <- <-.
    fold hint n.
    exists (keyword_request handle r (VStr (hint ++ string_of_nat n))),
           (keyword_request handle r (VStr (hint ++ string_of_nat (S n)))).
    eexists.
    split; [reflexivity |]. split; [reflexivity |]. split.
    { unfold call, generated_call. unfold bind at 1, lift.
      rewrite Hb. unfold generated_body. rewrite Hvar.
      rewrite keyword_body_plan. cbn [attr_scope]. rewrite Hplan.
      unfold bind. rewrite NameManager_get_fresh.
      unfold counter_of at 1. cbn [name_counter].
      rewrite dict_get_set_same. unfold _symbol_creator.
      cbn [created attr_scope name_counter engine_error].
      destruct (engine_error w _ _); reflexivity. }
    split; [apply fresh_names_differ |]. repeat split.
Qed.

End BothConventions.

(** ** The claims on concrete calls *)

Lemma sample_classifications :
  classify (info_args Add_info) = inr Add_sig
  /\ classify (info_args Concat_info) = inr Concat_sig
  /\ classify (info_args Cast_info) = inr Cast_sig
  /\ classify (info_args topk_info) = inr topk_sig.
Proof. repeat split. Qed.

Lemma run_op_sample_call (info : op_info) (c : classified)
      (args : list value) (kws : list (string * value)) (w : world) :
  classify (info_args info) = inr c ->
  run_op info args kws w = sample_call info c args kws w.
Proof.
  intro H. unfold run_op, _make_atomic_symbol_function, sample_call.
  now rewrite H.
Qed.

(** The two scenarios of the specification. *)
Example scenario_Add :
  run_op Add_info [] [("a", VSym 0); ("b", VSym 1)] world_init
  = (inr (VSym 0),
     World [] [("add", 1)]
           [Request 11 None [("a", VSym 0); ("b", VSym 1)] [] []
                    (VStr "add0")] accepting).
Proof. reflexivity. Qed.

Example scenario_Concat :
  run_op Concat_info [VSym 0; VSym 1; VSym 2] [] world_init
  = (inr (VSym 0),
     World [] [("concat", 1)]
           [Request 12 (Some [VSym 0; VSym 1; VSym 2]) []
                    ["num_args"] [VInt 3] (VStr "concat0")] accepting).
Proof. reflexivity. Qed.

(** C1 fails on the code.  [Cast] declares the plain scalar [axis]; a call
    in the keyword-only convention that passes a node reference for it puts
    that node into [vals], under the key [axis], and not into the keyword
    nodes. *)
Theorem node_for_declared_scalar_lands_in_vals :
  run_op Cast_info [] [("data", VSym 0); ("axis", VSym 3)] world_init
  = (inr (VSym 0),
     World [] [("cast", 1)]
           [Request 13 None [("data", VSym 0)] ["axis"] [VSym 3]
                    (VStr "cast0")] accepting).
Proof. reflexivity. Qed.

(** The same keyword handed to a variadic function is routed to the
    keyword nodes. *)
Example node_keyword_variadic_is_routed :
  run_op Concat_info [VSym 0] [("dim", VSym 3)] world_init
  = (inr (VSym 0),
     World [] [("concat", 1)]
           [Request 12 (Some [VSym 0]) [("dim", VSym 3)]
                    ["num_args"] [VInt 2] (VStr "concat0")] accepting).
Proof. reflexivity. Qed.

(** C8 fails on the code.  [topk] declares the plain scalar [k]; under an
    attribute scope the loop over the keyword mapping leaves the name of
    the last attribute in the variable [k], and the entry appended for the
    key [k] carries that name instead of the caller's 3. *)
Theorem loop_variable_overwrites_declared_scalar :
  run_op topk_info [] [("data", VSym 0); ("k", VInt 3)]
         (World [("ctx_group", "dev1")] [] [] accepting)
  = (inr (VSym 0),
     World [("ctx_group", "dev1")] [("topk", 1)]
           [Request 14 None [("data", VSym 0)]
                    ["ctx_group"; "k"] [VStr "dev1"; VStr "ctx_group"]
                    (VStr "topk0")] accepting).
Proof. reflexivity. Qed.

(** Without a keyword tail the same call forwards the caller's value. *)
Example declared_scalar_without_tail :
  run_op topk_info [] [("data", VSym 0); ("k", VInt 3)] world_init
  = (inr (VSym 0),
     World [] [("topk", 1)]
           [Request 14 None [("data", VSym 0)] ["k"] [VInt 3]
                    (VStr "topk0")] accepting).
Proof. reflexivity. Qed.

(** C3 as stated is refuted.  The caller supplies no [num_args], the scope
    holds an attribute of that name: no count is injected.  And when the
    caller does supply [num_args] under that scope, the value forwarded is
    the attribute's, not the caller's. *)
Lemma scope_attribute_replaces_count :
  run_op Concat_info [VSym 0; VSym 1] [] (World [("num_args", "5")] [] [] accepting)
  = (inr (VSym 0),
     World [("num_args", "5")] [("concat", 1)]
           [Request 12 (Some [VSym 0; VSym 1]) []
                    ["num_args"] [VStr "5"] (VStr "concat0")] accepting)
  /\ run_op Concat_info [VSym 0; VSym 1] [("num_args", VInt 7)]
            (World [("num_args", "5")] [] [] accepting)
     = (inr (VSym 0),
        World [("num_args", "5")] [("concat", 1)]
              [Request 12 (Some [VSym 0; VSym 1]) []
                       ["num_args"] [VStr "5"] (VStr "concat0")] accepting).
Proof. split; reflexivity. Qed.

(** C4 as stated is refuted.  The caller sets the keyword [ctx], the scope
    holds an attribute [ctx]: the entry forwarded under [ctx] carries the
    scope's value. *)
Lemma scope_attribute_overwrites_caller_keyword :
  run_op Concat_info [VSym 0; VSym 1] [("ctx", VStr "cpu")]
         (World [("ctx", "gpu")] [] [] accepting)
  = (inr (VSym 0),
     World [("ctx", "gpu")] [("concat", 1)]
           [Request 12 (Some [VSym 0; VSym 1]) []
                    ["ctx"; "num_args"] [VStr "gpu"; VInt 2]
                    (VStr "concat0")] accepting).
Proof. reflexivity. Qed.

(** The explicit [attr] mapping does win over the scope. *)
Example explicit_attr_wins_over_scope :
  run_op Concat_info [VSym 0; VSym 1] [("attr", VAttrs [("ctx", "cpu")])]
         (World [("ctx", "gpu")] [] [] accepting)
  = (inr (VSym 0),
     World [("ctx", "gpu")] [("concat", 1)]
           [Request 12 (Some [VSym 0; VSym 1]) []
                    ["ctx"; "num_args"] [VStr "cpu"; VInt 2]
                    (VStr "concat0")] accepting).
Proof. reflexivity. Qed.


(** The attribute does not replace a declared scalar parameter of the
    keyword-only convention: [Cast] declares [axis], the scope holds an
    attribute [axis], and both are forwarded, the attribute first. *)
Example scope_attribute_beside_declared_scalar :
  run_op Cast_info [] [("data", VSym 0); ("axis", VInt 1)]
         (World [("axis", "7")] [] [] accepting)
  = (inr (VSym 0),
     World [("axis", "7")] [("cast", 1)]
           [Request 13 None [("data", VSym 0)]
                    ["axis"; "axis"] [VStr "7"; VInt 1]
                    (VStr "cast0")] accepting).
Proof. reflexivity. Qed.

(** C7 as stated is refuted.  The caller gives no name and the scope holds
    an attribute [name]: the variadic body pops it, after the fold, as the
    requested name, and the two calls pass the same name. *)
Lemma scope_name_is_passed_by_both_calls :
  run_op Concat_info [VSym 0; VSym 1] []
         (World [("name", "foo")] [] [] accepting)
  = (inr (VSym 0),
     World [("name", "foo")] []
           [Request 12 (Some [VSym 0; VSym 1]) []
                    ["num_args"] [VInt 2] (VStr "foo")] accepting)
  /\ run_op Concat_info [VSym 0; VSym 1] []
            (World [("name", "foo")] []
                   [Request 12 (Some [VSym 0; VSym 1]) []
                            ["num_args"] [VInt 2] (VStr "foo")] accepting)
     = (inr (VSym 1),
        World [("name", "foo")] []
              [Request 12 (Some [VSym 0; VSym 1]) []
                       ["num_args"] [VInt 2] (VStr "foo");
               Request 12 (Some [VSym 0; VSym 1]) []
                       ["num_args"] [VInt 2] (VStr "foo")] accepting).
Proof. split; reflexivity. Qed.

(** C9 as stated is refuted.  The count key of [Stack] is [out] and the
    scope holds an attribute [out]: the body pops it before the membership
    test, the attribute's value is not forwarded and the count is
    injected. *)
Lemma popped_scope_attribute_does_not_suppress_count :
  run_op Stack_info [VSym 0; VSym 1] []
         (World [("out", "5")] [] [] accepting)
  = (inr (VSym 0),
     World [("out", "5")] [("stack", 1)]
           [Request 15 (Some [VSym 0; VSym 1]) []
                    ["out"] [VInt 2] (VStr "stack0")] accepting).
Proof. reflexivity. Qed.

(** A request the engine refuses: the error reaches the caller, nothing is
    created, and the name drawn for the request is used up. *)
Example engine_refusal_comes_after_the_name :
  run_op Add_info [] [("a", VSym 0); ("b", VSym 1)]
         (World [] [] [] (refusing "shape mismatch"))
  = (inl (ForeignError "shape mismatch"),
     World [] [("add", 1)] [] (refusing "shape mismatch")).
Proof. reflexivity. Qed.

(** ** The theorems at concrete calls *)


Lemma scope_attribute_suppresses_count_injection_witness :
  let w := World [("num_args", "5")] [] [] accepting in
  sample_call Concat_info Concat_sig [VSym 0; VSym 1] [] w
  = (inr (VSym 0),
     World [("num_args", "5")] [("concat", 1)]
           [Request 12 (Some [VSym 0; VSym 1]) []
                    ["num_args"] [VStr "5"] (VStr "concat0")] accepting)
  /\ exists r s,
       [Request 12 (Some [VSym 0; VSym 1]) []
                ["num_args"] [VStr "5"] (VStr "concat0")] = created w ++ [r]
       /\ dict_get "num_args" (merged_attrs (attr_scope w) (popped "attr" []))
          = Some s
       /\ (popped "attr" [] = VNone -> s = "5")
       /\ In ("num_args", VStr s) (entries r)
       /\ count_occ string_dec (req_keys r) "num_args" = 1
       /\ (forall x, In ("num_args", x) (entries r) -> x = VStr s).
Proof.
  intro w. split; [reflexivity |].
  destruct (scope_attribute_suppresses_count_injection
              sample_str sample_dtype_name "Concat" 12 "num_args" Concat_sig
              [VSym 0; VSym 1] [] w
              (World [("num_args", "5")] [("concat", 1)]
                     [Request 12 (Some [VSym 0; VSym 1]) []
                              ["num_args"] [VStr "5"] (VStr "concat0")]
                     accepting)
              (VSym 0) "5")
    as (r & s & H1 & H2 & H3 & H4 & _).
  - reflexivity.
  - left; reflexivity.
  - repeat constructor. intros [].
  - reflexivity.
  - reflexivity.
  - destruct (H4 ltac:(discriminate) ltac:(discriminate)) as (Ha & Hb & Hc).
    exists r, s. repeat split; assumption.
Defined.

Lemma key_variadic_count_injection_witness :
  sample_call Concat_info Concat_sig [VSym 0; VSym 1] [] world_init
  = (inr (VSym 0),
     World [] [("concat", 1)]
           [Request 12 (Some [VSym 0; VSym 1]) []
                    ["num_args"] [VInt 2] (VStr "concat0")] accepting)
  /\ exists r sa,
       [Request 12 (Some [VSym 0; VSym 1]) []
                ["num_args"] [VInt 2] (VStr "concat0")]
       = created world_init ++ [r]
       /\ req_args r = Some sa
       /\ (arr_name Concat_sig <> Some "sym_args" -> sa = [VSym 0; VSym 1])
       /\ (dict_get "num_args" ([] : dict value) = None ->
           exists ks vs,
             req_keys r = ks ++ ["num_args"]
             /\ req_vals r
                = vs ++ [VInt (Z.of_nat (List.length sa
                                         + List.length (req_kwargs r)))]
             /\ List.length ks = List.length vs
             /\ ~ In "num_args" ks).
Proof.
  split; [reflexivity |].
  destruct (key_variadic_count_injection
              sample_str sample_dtype_name "Concat" 12 "num_args" Concat_sig
              [VSym 0; VSym 1] [] world_init
              (World [] [("concat", 1)]
                     [Request 12 (Some [VSym 0; VSym 1]) []
                              ["num_args"] [VInt 2] (VStr "concat0")] accepting)
              (VSym 0))
    as (r & sa & H1 & H2 & H3 & H4 & _).
  - reflexivity.
  - reflexivity.
  - left; reflexivity.
  - discriminate.
  - discriminate.
  - discriminate.
  - constructor.
  - reflexivity.
  - reflexivity.
  - exists r, sa. repeat split; assumption.
Defined.

Lemma merged_attributes_are_forwarded_witness :
  let w := World [("ctx", "gpu")] [] [] accepting in
  let kws := [("ctx", VStr "cpu")] in
  bind_arguments (call_signature Concat_sig) [VSym 0; VSym 1] kws
  = inr (Frame [] [VSym 0; VSym 1] kws)
  /\ exists r,
       [Request 12 (Some [VSym 0; VSym 1]) []
                ["ctx"; "num_args"] [VStr "gpu"; VInt 2] (VStr "concat0")]
       = created w ++ [r]
       /\ In ("ctx", VStr "gpu") (entries r)
       /\ (opt_truthy (arr_name Concat_sig) = true ->
           count_occ string_dec (req_keys r) "ctx" = 1
           /\ forall x, In ("ctx", x) (entries r) -> x = VStr "gpu").
Proof.
  intros w kws. split; [reflexivity |].
  destruct (proj2 (merged_attributes_are_forwarded
                     sample_str sample_dtype_name "Concat" 12 "num_args"
                     Concat_sig)
                  [VSym 0; VSym 1] kws (Frame [] [VSym 0; VSym 1] kws) w
                  (World [("ctx", "gpu")] [("concat", 1)]
                         [Request 12 (Some [VSym 0; VSym 1]) []
                                  ["ctx"; "num_args"] [VStr "gpu"; VInt 2]
                                  (VStr "concat0")] accepting)
                  (VSym 0) "ctx" "gpu")
    as (r & H1 & H2 & H3 & _).
  - left; reflexivity.
  - repeat constructor. intros [].
  - reflexivity.
  - reflexivity.
  - intros _. split; discriminate.
  - reflexivity.
  - exists r. repeat split; try assumption; now apply H3.
Defined.

Lemma repeated_call_fresh_name_same_scalars_witness :
  let kws := [("a", VSym 0); ("b", VSym 1); ("ctx", VStr "cpu")] in
  let r1 := Request 11 None [("a", VSym 0); ("b", VSym 1)]
                    ["ctx"] [VStr "cpu"] (VStr "add0") in
  let w1 := World [] [("add", 1)] [r1] accepting in
  sample_call Add_info Add_sig [] kws world_init = (inr (VSym 0), w1)
  /\ exists r2 counters,
       sample_call Add_info Add_sig [] kws w1
       = (inr (VSym 1), World [] counters [r1; r2] accepting)
       /\ req_name r1 <> req_name r2
       /\ req_keys r1 = req_keys r2
       /\ req_vals r1 = req_vals r2
       /\ req_args r1 = req_args r2
       /\ req_kwargs r1 = req_kwargs r2.
Proof.
  intros kws r1 w1. split; [reflexivity |].
  destruct (repeated_call_fresh_name_same_scalars
              sample_str sample_dtype_name "Add" 11 "" Add_sig
              [] kws
              (Frame [("a", VSym 0); ("b", VSym 1); ("name", VNone);
                      ("attr", VNone); ("out", VNone)] []
                     [("ctx", VStr "cpu")])
              world_init w1 (VSym 0))
    as (r1' & r2 & counters & H1 & _ & H3 & H4 & H5 & H6 & H7 & H8).
  - left; reflexivity.
  - reflexivity.
  - reflexivity.
  - discriminate.
  - reflexivity.
  - injection H1 as <-.
    exists r2, counters. split; [exact H3 |].
    repeat split; assumption.
Defined.

Lemma keyword_only_request_layout_witness :
  let w := World [("ctx", "gpu")] [] [] accepting in
  let kws := [("data", VSym 0); ("axis", VInt 1); ("dtype", VStr "float32");
              ("foo", VStr "bar")] in
  sample_call Cast_info Cast_sig [] kws w
  = (inr (VSym 0),
     World [("ctx", "gpu")] [("cast", 1)]
           [Request 13 None [("data", VSym 0)]
                    ["foo"; "ctx"; "axis"; "dtype"]
                    [VStr "bar"; VStr "gpu"; VInt 1; VStr "float32"]
                    (VStr "cast0")] accepting)
  /\ exists r f,
       [Request 13 None [("data", VSym 0)]
                ["foo"; "ctx"; "axis"; "dtype"]
                [VStr "bar"; VStr "gpu"; VInt 1; VStr "float32"]
                (VStr "cast0")] = created w ++ [r]
       /\ bind_arguments (full_signature Cast_sig) [] kws = inr f
       /\ req_args r = None.
Proof.
  intros w kws. split; [reflexivity |].
  destruct (keyword_only_request_layout
              sample_str sample_dtype_name "Cast" 13 "" Cast_sig
              [] kws w
              (World [("ctx", "gpu")] [("cast", 1)]
                     [Request 13 None [("data", VSym 0)]
                              ["foo"; "ctx"; "axis"; "dtype"]
                              [VStr "bar"; VStr "gpu"; VInt 1; VStr "float32"]
                              (VStr "cast0")] accepting)
              (VSym 0))
    as (r & f & H1 & H2 & H3 & _).
  - reflexivity.
  - reflexivity.
  - exists r, f. repeat split; assumption.
Defined.

(** * Further properties *)

(** ** What classification records *)

Lemma param_names_app (a b : list sigitem) :
  param_names (a ++ b) = param_names a ++ param_names b.
Proof.
  induction a as [| [n d | n | n] a IH]; simpl; [reflexivity | | |];
    now rewrite IH.
Qed.

Lemma classify_step_shape (st st' : classified) (a : string * string) :
  classify_step st a = inr st' ->
  ndarg_names st' = ndarg_names st ++ map fst (filter is_optional_node [a])
  /\ kwarg_names st' = kwarg_names st ++ map fst (filter is_plain_scalar [a])
  /\ param_names (ndsignature st')
     = param_names (ndsignature st) ++ map fst (filter is_optional_node [a])
  /\ param_names (signature st')
     = param_names (signature st) ++ map fst (filter is_scalar [a])
  /\ List.length (ndsignature st') + List.length (signature st')
     = S (List.length (ndsignature st) + List.length (signature st))
  /\ dtype_name st'
     = (if is_dtype_scalar a then Some "dtype" else dtype_name st).
Proof.
  destruct a as [n t].
  unfold classify_step, is_scalar, is_optional_node, is_plain_scalar,
    is_dtype_scalar, kind_of. simpl filter.
  destruct (String.eqb n "dtype") eqn:En.
  - apply String.eqb_eq in En. subst n. intros [= <-]. cbn.
    rewrite ?app_nil_r, ?param_names_app, ?length_app. cbn.
    repeat split; auto; try lia.
  - destruct (node_typed t).
    + destruct (opt_truthy (arr_name st)); [discriminate |].
      destruct (endswith "[]" t); intros [= <-]; cbn;
        rewrite ?app_nil_r, ?param_names_app, ?length_app; cbn;
        rewrite ?app_nil_r; repeat split; auto; try lia.
    + intros [= <-]. cbn.
      rewrite ?app_nil_r, ?param_names_app, ?length_app. cbn.
      repeat split; auto; try lia.
Qed.

Lemma map_fst_filter_cons {A B} (f : A * B -> bool) (a : A * B)
      (l : list (A * B)) :
  map fst (filter f (a :: l)) = map fst (filter f [a]) ++ map fst (filter f l).
Proof. simpl. now destruct (f a). Qed.

Lemma classify_from_shape (args : list (string * string)) :
  forall st c,
    classify_from st args = inr c ->
    ndarg_names c = ndarg_names st ++ map fst (filter is_optional_node args)
    /\ kwarg_names c = kwarg_names st ++ map fst (filter is_plain_scalar args)
    /\ param_names (ndsignature c)
       = param_names (ndsignature st)
         ++ map fst (filter is_optional_node args)
    /\ param_names (signature c)
       = param_names (signature st) ++ map fst (filter is_scalar args)
    /\ List.length (ndsignature c) + List.length (signature c)
       = List.length (ndsignature st) + List.length (signature st)
         + List.length args
    /\ dtype_name c
       = (if existsb is_dtype_scalar args then Some "dtype"
          else dtype_name st).
Proof.
  induction args as [| a rest IH]; intros st c.
  - simpl. intros [= <-]. rewrite !app_nil_r. repeat split; auto.
  - cbn [classify_from].
    destruct (classify_step st a) as [e | st'] eqn:Hstep; [discriminate |].
    intro H. apply IH in H.
    destruct H as (H1 & H2 & H3 & H4 & H5 & H6).
    destruct (classify_step_shape _ _ _ Hstep)
      as (S1 & S2 & S3 & S4 & S5 & S6).
    rewrite H1, H2, H3, H4, H5, H6, S1, S2, S3, S4, S5, S6.
    rewrite !(map_fst_filter_cons _ a rest), <- !app_assoc.
    repeat split; auto; try (simpl; lia).
    cbn [existsb]. now destruct (is_dtype_scalar a), (existsb _ rest).
Qed.

(** X1.  A classification that succeeds sorts the declared arguments
    without losing or reordering any: [ndarg_names] are the names of the
    single-node arguments and [kwarg_names] those of the plain scalars,
    each in declaration order, and [dtype_name] is set exactly when an
    argument named [dtype] is declared. *)
Theorem classify_sorts_arguments :
  forall (args : list (string * string)) (c : classified),
    classify args = inr c ->
    ndarg_names c = map fst (filter is_optional_node args)
    /\ kwarg_names c = map fst (filter is_plain_scalar args)
    /\ dtype_name c
       = (if existsb is_dtype_scalar args then Some "dtype" else None).
Proof.
  intros args c H.
  destruct (classify_from_shape args _ _ H) as (H1 & H2 & _ & _ & _ & H6).
  repeat split; assumption.
Qed.

(** X2.  The parameter list built for the keyword-only [def] names every
    single-node argument first, then every scalar argument (the dtype
    among them) in declaration order, then [name], [attr] and [out]:
    node parameters come before scalar parameters whatever the order of
    declaration, and each declared argument yields one entry of
    [ndsignature] or [signature]. *)
Theorem parameter_list_nodes_first :
  forall (args : list (string * string)) (c : classified),
    classify args = inr c ->
    param_names (full_signature c)
    = map fst (filter is_optional_node args)
      ++ map fst (filter is_scalar args)
      ++ ["name"; "attr"; "out"]
    /\ List.length (ndsignature c) + List.length (signature c)
       = List.length args.
Proof.
  intros args c H.
  destruct (classify_from_shape args _ _ H) as (_ & _ & H3 & H4 & H5 & _).
  unfold full_signature. rewrite !param_names_app, H3, H4.
  split; [reflexivity | exact H5].
Qed.

Lemma classify_from_array (args : list (string * string)) :
  Forall (fun a => fst a <> "") args ->
  forall st c,
    classify_from st args = inr c ->
    (opt_truthy (arr_name st) = true ->
     filter is_variadic args = [] /\ arr_name c = arr_name st)
    /\ (opt_truthy (arr_name st) = false ->
        (filter is_variadic args = [] /\ arr_name c = arr_name st)
        \/ exists a, filter is_variadic args = [a]
                     /\ arr_name c = Some (fst a)).
Proof.
  induction 1 as [| [n t] rest Hn Hrest IH]; intros st c.
  - simpl. intros [= <-]. split; intros _; [| left]; now split.
  - cbn [classify_from filter].
    assert (Hkind : is_variadic (n, t)
                    = negb (String.eqb n "dtype") && node_typed t
                      && endswith "[]" t).
    { unfold is_variadic, kind_of.
      destruct (String.eqb n "dtype"), (node_typed t), (endswith "[]" t);
        reflexivity. }
    rewrite Hkind. unfold classify_step.
    destruct (String.eqb n "dtype"); cbn [negb andb].
    + intro H. destruct (IH _ _ H) as [IH1 IH2]. cbn [arr_name] in IH1, IH2.
      exact (conj IH1 IH2).
    + destruct (node_typed t); cbn [andb].
      * destruct (opt_truthy (arr_name st)) eqn:Harr; [discriminate |].
        destruct (endswith "[]" t).
        -- intro H. destruct (IH _ _ H) as [IH1 _].
           cbn [arr_name opt_truthy fst] in IH1, Hn.
           destruct (IH1 (str_truthy_nonempty _ Hn)) as [Hf Ha].
           split; [discriminate |]. intros _. right.
           exists (n, t). rewrite Hf. now split.
        -- intro H. destruct (IH _ _ H) as [_ IH2].
           cbn [arr_name] in IH2. split; [discriminate |].
           intros _. exact (IH2 Harr).
      * intro H. destruct (IH _ _ H) as [IH1 IH2]. cbn [arr_name] in IH1, IH2.
        exact (conj IH1 IH2).
Qed.

(** X3.  For declared arguments with non-empty names, a classification
    that succeeds has met at most one node-array argument; [arr_name] is
    its name, and the variadic convention is chosen exactly when there is
    one. *)
Theorem convention_follows_array_argument :
  forall (args : list (string * string)) (c : classified),
    Forall (fun a => fst a <> "") args ->
    classify args = inr c ->
    ((filter is_variadic args = [] /\ arr_name c = None)
     \/ exists a, filter is_variadic args = [a] /\ arr_name c = Some (fst a))
    /\ opt_truthy (arr_name c) = existsb is_variadic args.
Proof.
  intros args c Hnames H.
  destruct (classify_from_array args Hnames _ _ H) as [_ Hcase].
  specialize (Hcase eq_refl).
  assert (Hex : forall l : list (string * string),
             existsb is_variadic l
             = negb (match filter is_variadic l with [] => true | _ => false end)).
  { induction l as [| b l IHl]; simpl; [reflexivity |].
    destruct (is_variadic b); simpl; [reflexivity | exact IHl]. }
  split; [exact Hcase |].
  rewrite Hex.
  destruct Hcase as [[Hf Ha] | (a & Hf & Ha)]; rewrite Hf, Ha; simpl.
  - reflexivity.
  - apply str_truthy_nonempty.
    assert (Hin : In a args).
    { assert (Hin : In a (filter is_variadic args)) by (rewrite Hf; now left).
      now apply filter_In in Hin. }
    exact (proj1 (Forall_forall _ _) Hnames a Hin).
Qed.

(** ** What every call does *)

Lemma dict_set_Forall_snd {V} (P : V -> Prop) (k : string) (v : V) (d : dict V) :
  Forall P (map snd d) -> P v -> Forall P (map snd (dict_set k v d)).
Proof.
  intros Hd Hv. induction d as [| [k0 v0] d IH]; simpl.
  - now constructor.
  - inversion Hd as [| ? ? H0 Hrest]; subst.
    destruct (String.eqb k0 k); simpl; constructor; auto.
Qed.

Lemma route_kwargs_sym_Forall (items : list (string * value)) :
  forall r,
    Forall (fun x => isinstance_SymbolBase x = true) (map snd (sym_kwargs r)) ->
    Forall (fun x => isinstance_SymbolBase x = true)
           (map snd (sym_kwargs (route_kwargs items r))).
Proof.
  induction items as [| [k v] rest IH]; intros r Hr; simpl; [exact Hr |].
  apply IH. destruct (isinstance_SymbolBase v) eqn:Hv; simpl; [| exact Hr].
  now apply dict_set_Forall_snd.
Qed.

(** Under distinct keys the keyword nodes are the node-valued entries, in
    the order of the mapping. *)
Lemma route_kwargs_sym (items : list (string * value)) :
  forall r,
    NoDup (dict_keys (sym_kwargs r) ++ dict_keys items) ->
    sym_kwargs (route_kwargs items r) = sym_kwargs r ++ node_items items.
Proof.
  induction items as [| [k v] rest IH]; intros r Hnd; simpl.
  - now rewrite app_nil_r.
  - simpl in Hnd. destruct (isinstance_SymbolBase v) eqn:Hv.
    + assert (Hfresh : dict_mem k (sym_kwargs r) = false).
      { destruct (dict_mem k (sym_kwargs r)) eqn:E; [| reflexivity].
        apply dict_mem_true in E. apply NoDup_remove_2 in Hnd.
        exfalso. apply Hnd. apply in_or_app. now left. }
      rewrite IH; cbn [set_sym_kwarg sym_kwargs];
        rewrite (dict_set_fresh _ _ _ Hfresh).
      * now rewrite <- app_assoc.
      * unfold dict_keys in *. rewrite map_app, <- app_assoc. exact Hnd.
    + rewrite IH; [reflexivity |].
      cbn [append_scalar sym_kwargs]. now apply NoDup_remove_1 in Hnd.
Qed.



Lemma canonical_dtype_kwarg_NoDup (numpy_dtype_name : value -> exn + string)
      (c : classified) (kws kw1 : dict value) :
  canonical_dtype_kwarg numpy_dtype_name c kws = inr kw1 ->
  NoDup (dict_keys kws) -> NoDup (dict_keys kw1).
Proof.
  unfold canonical_dtype_kwarg, rbind.
  destruct (dtype_name c) as [d |]; [| now intros [= <-]].
  destruct (dict_get d kws) as [v |]; [| now intros [= <-]].
  destruct (numpy_dtype_name v) as [e | n]; [discriminate |].
  intros [= <-]. apply dict_set_NoDup.
Qed.

Lemma node_params_sym_Forall (py_str : value -> string) (names : list string)
      (env : dict value) :
  forall r r',
    node_params py_str names env r = inr r' ->
    Forall (fun x => isinstance_SymbolBase x = true) (map snd (sym_kwargs r)) ->
    Forall (fun x => isinstance_SymbolBase x = true) (map snd (sym_kwargs r')).
Proof.
  induction names as [| x rest IH]; intros r r'; simpl.
  - now intros [= <-].
  - unfold rbind. destruct (read_local x env) as [e | v]; [discriminate |].
    destruct (is_not_None v); [| apply IH].
    destruct (isinstance_SymbolBase v) eqn:Hv; [| discriminate].
    intros H Hr. eapply IH; [exact H |].
    cbn [set_sym_kwarg sym_kwargs]. now apply dict_set_Forall_snd.
Qed.

Section EveryCall.

Variable py_str : value -> string.
Variable numpy_dtype_name : value -> exn + string.
Variable func_name : string.
Variable handle : Z.
Variable key_var_num_args : string.
Variable c : classified.


(** X5.  Whatever reaches the creation primitive as a node is a node:
    every value among the keyword nodes of a request, and every positional
    node, is an instance of [SymbolBase]. *)
Theorem request_nodes_are_nodes :
  forall (args : list value) (kws : list (string * value))
         (w w' : world) (v : value),
    generated_call py_str numpy_dtype_name func_name handle key_var_num_args
                   c args kws w = (inr v, w') ->
    exists r,
      created w' = created w ++ [r]
      /\ Forall (fun x => isinstance_SymbolBase x = true)
                (map snd (req_kwargs r))
      /\ (forall sa, req_args r = Some sa ->
                     Forall (fun x => isinstance_SymbolBase x = true) sa).
Proof.
  intros args kws w w' v Hcall.
  destruct (opt_truthy (arr_name c)) eqn:Hvar.
  - destruct (variadic_call_inv py_str numpy_dtype_name func_name handle
                key_var_num_args c args kws w w' v Hvar Hcall)
      as (sa & kw1 & name' & counters & _ & _ & _ & Hplan & _ & ->).
    eexists. split; [reflexivity |]. split.
    + rewrite variadic_request_kwargs.
      apply route_kwargs_sym_Forall. constructor.
    + intros sa' [= <-].
      destruct (variadic_plan_inv py_str numpy_dtype_name c _ _ _ _ _ Hplan)
        as (_ & _ & _ & _ & Hcol).
      apply collect_sym_args_ok in Hcol. destruct Hcol as [-> HF]. exact HF.
  - destruct (keyword_call_inv py_str numpy_dtype_name func_name handle
                key_var_num_args c args kws w w' v Hvar Hcall)
      as (f & r & nm & name' & counters & _ & Hp & _ & ->).
    eexists. split; [reflexivity |]. split; [| discriminate].
    destruct (keyword_plan_inv py_str numpy_dtype_name c _ _ _ _ Hp)
      as (attr & r1 & r2 & _ & _ & H1 & H2 & H3 & _).
    cbn [keyword_request req_kwargs].
    apply dtype_param_appends in H3. destruct H3 as (dt & _ & _ & -> & _).
    apply scalar_params_appends in H2. destruct H2 as (_ & _ & ->).
    eapply node_params_sym_Forall; [exact H1 |].
    apply route_kwargs_sym_Forall. constructor.
Qed.

End EveryCall.

(** ** More on the variadic convention *)

Lemma dict_remove_set_other {V} (k k' : string) (v : V) (d : dict V) :
  k <> k' -> dict_remove k (dict_set k' v d) = dict_set k' v (dict_remove k d).
Proof.
  intro Hne. induction d as [| [k0 v0] d IH]; simpl.
  - destruct (String.eqb k' k) eqn:E; [| reflexivity].
    apply String.eqb_eq in E. congruence.
  - destruct (String.eqb k0 k') eqn:E1; destruct (String.eqb k0 k) eqn:E2;
      simpl; rewrite ?E1, ?E2; try reflexivity.
    + apply String.eqb_eq in E1, E2. congruence.
    + apply String.eqb_eq in E1. subst k0.
      destruct (String.eqb k' k) eqn:E3; [| reflexivity].
      apply String.eqb_eq in E3. congruence.
    + exact IH.
    + now rewrite IH.
Qed.

Lemma dict_remove_set_same {V} (k : string) (v : V) (d : dict V) :
  dict_remove k (dict_set k v d) = dict_remove k d.
Proof.
  induction d as [| [k0 v0] d IH]; simpl.
  - now rewrite String.eqb_refl.
  - destruct (String.eqb k0 k) eqn:E; simpl.
    + now rewrite String.eqb_refl.
    + now rewrite E, IH.
Qed.

Lemma dict_remove_comm {V} (k k' : string) (d : dict V) :
  dict_remove k (dict_remove k' d) = dict_remove k' (dict_remove k d).
Proof.
  induction d as [| [k0 v0] d IH]; simpl; [reflexivity |].
  destruct (String.eqb k0 k') eqn:E1; destruct (String.eqb k0 k) eqn:E2;
    simpl; rewrite ?E1, ?E2; try exact IH. now rewrite IH.
Qed.

Lemma dict_remove_set_congr {V} (k k0 : string) (v0 : V) (d d' : dict V) :
  dict_remove k d = dict_remove k d' ->
  dict_remove k (dict_set k0 v0 d) = dict_remove k (dict_set k0 v0 d').
Proof.
  intro H. destruct (string_dec k k0) as [<- | Hne].
  - now rewrite !dict_remove_set_same.
  - rewrite !dict_remove_set_other by exact Hne. now rewrite H.
Qed.

Lemma dict_remove_update_congr {V} (k : string) (e : dict V) :
  forall d d' : dict V,
    dict_remove k d = dict_remove k d' ->
    dict_remove k (dict_update d e) = dict_remove k (dict_update d' e).
Proof.
  unfold dict_update.
  induction e as [| [k0 v0] e IH]; intros d d' H; simpl; [exact H |].
  apply IH. now apply dict_remove_set_congr.
Qed.

Lemma dict_remove_get_congr {V} (k k' : string) (d d' : dict V) :
  k <> k' -> dict_remove k d = dict_remove k d' ->
  dict_get k' d = dict_get k' d'.
Proof.
  intros Hne H.
  rewrite <- (dict_get_remove_other k k' d Hne).
  rewrite <- (dict_get_remove_other k k' d' Hne). now rewrite H.
Qed.


Section VariadicShape.

Variable py_str : value -> string.
Variable numpy_dtype_name : value -> exn + string.
Variable func_name : string.
Variable handle : Z.
Variable key_var_num_args : string.
Variable c : classified.

Lemma variadic_request_partition (sa : list value) (K : dict value)
      (nm : value) :
  NoDup (dict_keys K) ->
  req_kwargs (variadic_request handle key_var_num_args sa K nm) = node_items K
  /\ entries (variadic_request handle key_var_num_args sa K nm)
     = scalar_items K ++ injected_entry key_var_num_args sa K.
Proof.
  intro Hnd.
  assert (Hkw : req_kwargs (variadic_request handle key_var_num_args sa K nm)
                = node_items K).
  { rewrite variadic_request_kwargs.
    now rewrite (route_kwargs_sym K routing_init Hnd). }
  split; [exact Hkw |].
  unfold entries. rewrite variadic_request_keys, variadic_request_vals, Hkw.
  rewrite combine_app_aligned by now rewrite !length_map.
  rewrite combine_map_fst_snd. unfold injected_entry.
  now destruct (str_truthy key_var_num_args
                && negb (dict_mem key_var_num_args K)).
Qed.

(** Two keyword mappings that differ only under [out] are planned
    alike. *)
Lemma variadic_plan_ignores_out (scope : dict string) (l : dict value)
      (args : list value) (kws kws' : dict value) :
  dtype_name c <> Some "out" ->
  dict_remove "out" kws = dict_remove "out" kws' ->
  variadic_plan py_str numpy_dtype_name c scope (Frame l args kws)
  = variadic_plan py_str numpy_dtype_name c scope (Frame l args kws').
Proof.
  intros Hd Heq. unfold variadic_plan, rbind. cbn [star_args kwargs_in].
  destruct (collect_sym_args py_str _ []) as [e | sa]; [reflexivity |].
  assert (Hcan :
            match canonical_dtype_kwarg numpy_dtype_name c kws,
                  canonical_dtype_kwarg numpy_dtype_name c kws' with
            | inl e, inl e' => e = e'
            | inr k1, inr k1' => dict_remove "out" k1 = dict_remove "out" k1'
            | _, _ => False
            end).
  { unfold canonical_dtype_kwarg, rbind.
    destruct (dtype_name c) as [d |]; [| exact Heq].
    assert (Hne : "out" <> d) by congruence.
    rewrite (dict_remove_get_congr "out" d kws kws' Hne Heq).
    destruct (dict_get d kws') as [x |]; [| exact Heq].
    destruct (numpy_dtype_name x) as [e | n]; [reflexivity |].
    now apply dict_remove_set_congr. }
  destruct (canonical_dtype_kwarg numpy_dtype_name c kws) as [e | k1];
    destruct (canonical_dtype_kwarg numpy_dtype_name c kws') as [e' | k1'];
    try contradiction; [now subst |].
  unfold dict_pop.
  assert (Hattr : dict_get "attr" k1 = dict_get "attr" k1').
  { apply (dict_remove_get_congr "out"); [discriminate | exact Hcan]. }
  rewrite Hattr.
  destruct (AttrScope_merge scope _) as [e | attrs]; [reflexivity |].
  assert (H2 : dict_remove "out" (dict_remove "attr" k1)
               = dict_remove "out" (dict_remove "attr" k1')).
  { rewrite (dict_remove_comm "out" "attr" k1).
    rewrite (dict_remove_comm "out" "attr" k1'). now rewrite Hcan. }
  pose proof (dict_remove_update_congr "out" (attr_items attrs) _ _ H2) as H3.
  assert (Hname :
            dict_get "name" (dict_update (dict_remove "attr" k1)
                                         (attr_items attrs))
            = dict_get "name" (dict_update (dict_remove "attr" k1')
                                           (attr_items attrs))).
  { apply (dict_remove_get_congr "out"); [discriminate | exact H3]. }
  rewrite Hname.
  rewrite (dict_remove_comm "out" "name"
             (dict_update (dict_remove "attr" k1) (attr_items attrs))).
  rewrite (dict_remove_comm "out" "name"
             (dict_update (dict_remove "attr" k1') (attr_items attrs))).
  now rewrite H3.
Qed.

End VariadicShape.

Section VariadicMore.

Variable py_str : value -> string.
Variable numpy_dtype_name : value -> exn + string.
Variable func_name : string.
Variable handle : Z.
Variable key_var_num_args : string.
Variable c : classified.


(** X7.  In the variadic convention the reserved keywords [name] and
    [out] are consumed: whether they come from the caller or from the
    attribute scope, neither is ever a key of the request nor the name of a
    keyword node ([key_var_num_args] not being one of them). *)
Theorem variadic_consumes_name_and_out :
  forall (args : list value) (kws : list (string * value))
         (w w' : world) (v : value) (k : string),
    opt_truthy (arr_name c) = true ->
    key_var_num_args <> k ->
    k = "name" \/ k = "out" ->
    generated_call py_str numpy_dtype_name func_name handle key_var_num_args
                   c args kws w = (inr v, w') ->
    exists r,
      created w' = created w ++ [r]
      /\ ~ In k (req_keys r)
      /\ ~ In k (dict_keys (req_kwargs r)).
Proof.
  intros args kws w w' v k Hvar Hkey Hk Hcall.
  destruct (variadic_call_inv py_str numpy_dtype_name func_name handle
              key_var_num_args c args kws w w' v Hvar Hcall)
    as (sa & kw1 & name' & counters & Hnd & _ & Hkw & _ & _ & ->).
  set (K := routed_mapping (attr_scope w) kw1).
  assert (HK : ~ In k (dict_keys K)).
  { unfold K, routed_mapping. intro Hin.
    apply dict_keys_remove in Hin. destruct Hin as [Ho Hin].
    apply dict_keys_remove in Hin. destruct Hin as [Hn _].
    destruct Hk; congruence. }
  assert (HndK : NoDup (dict_keys K)).
  { apply routed_mapping_NoDup.
    exact (canonical_dtype_kwarg_NoDup _ _ _ _ Hkw Hnd). }
  exists (variadic_request handle key_var_num_args sa K name').
  split; [reflexivity |]. split.
  - rewrite variadic_request_keys. intro Hin.
    apply in_app_or in Hin. destruct Hin as [Hin | Hin].
    + apply HK. now apply scalar_items_keys_incl.
    + destruct (str_truthy key_var_num_args
                && negb (dict_mem key_var_num_args K)); [| destruct Hin].
      destruct Hin as [Hin | []]. contradiction.
  - rewrite (proj1 (variadic_request_partition handle key_var_num_args
                      sa K name' HndK)).
    intro Hin. apply HK. unfold dict_keys, node_items in *.
    apply in_map_iff in Hin. destruct Hin as (kv & <- & Hin).
    apply filter_In in Hin. now apply in_map.
Qed.

(** X8.  In the variadic convention the keyword [out] has no effect: two
    calls whose keywords differ only in what they give for [out] have the
    same outcome, result and world. *)
Theorem variadic_ignores_out :
  forall (args : list value) (kws kws' : list (string * value)) (w : world),
    opt_truthy (arr_name c) = true ->
    dtype_name c <> Some "out" ->
    NoDup (dict_keys kws) -> NoDup (dict_keys kws') ->
    dict_remove "out" kws = dict_remove "out" kws' ->
    generated_call py_str numpy_dtype_name func_name handle key_var_num_args
                   c args kws w
    = generated_call py_str numpy_dtype_name func_name handle key_var_num_args
                     c args kws' w.
Proof.
  intros args kws kws' w Hvar Hd Hnd Hnd' Heq.
  unfold generated_call, call_signature, generated_body.
  rewrite Hvar. unfold variadic_signature.
  assert (Ha : str_truthy (match arr_name c with Some a => a | None => "" end)
               = true).
  { destruct (arr_name c); [exact Hvar | discriminate]. }
  rewrite (bind_variadic _ args kws Ha Hnd).
  rewrite (bind_variadic _ args kws' Ha Hnd').
  unfold bind, lift. rewrite !variadic_body_plan.
  now rewrite (variadic_plan_ignores_out py_str numpy_dtype_name c
                 (attr_scope w) [] args kws kws' Hd Heq).
Qed.


End VariadicMore.

(** ** More on the keyword-only convention *)





Section KeywordMore.

Variable py_str : value -> string.
Variable numpy_dtype_name : value -> exn + string.
Variable func_name : string.
Variable handle : Z.
Variable key_var_num_args : string.
Variable c : classified.


Lemma node_params_keeps_node (names : list string) (env : dict value)
      (x : string) (u : value) :
  dict_get x env = Some u ->
  forall r r',
    node_params py_str names env r = inr r' ->
    dict_get x (sym_kwargs r) = Some u ->
    dict_get x (sym_kwargs r') = Some u.
Proof.
  intro Hx. induction names as [| y rest IH]; intros r r'; simpl.
  - now intros [= <-].
  - unfold rbind, read_local.
    destruct (dict_get y env) as [w0 |] eqn:Hy; [| discriminate].
    destruct (is_not_None w0); [| apply IH].
    destruct (isinstance_SymbolBase w0); [| discriminate].
    intros H Hr. eapply IH; [exact H |]. cbn [set_sym_kwarg sym_kwargs].
    destruct (string_dec y x) as [-> | Hne].
    + rewrite dict_get_set_same. congruence.
    + now rewrite dict_get_set_other.
Qed.

Lemma node_params_sets_node (names : list string) (env : dict value)
      (x : string) (u : value) :
  In x names -> dict_get x env = Some u -> isinstance_SymbolBase u = true ->
  forall r r',
    node_params py_str names env r = inr r' ->
    dict_get x (sym_kwargs r') = Some u.
Proof.
  intros Hin Hx Hs. induction names as [| y rest IH]; [destruct Hin |].
  intros r r'. simpl. unfold rbind, read_local.
  destruct (dict_get y env) as [w0 |] eqn:Hy; [| discriminate].
  destruct Hin as [-> | Hin].
  - rewrite Hx in Hy. injection Hy as <-.
    assert (Hnn : is_not_None u = true) by (destruct u; try discriminate; reflexivity).
    rewrite Hnn, Hs. intro H.
    eapply node_params_keeps_node; [exact Hx | exact H |].
    cbn [set_sym_kwarg sym_kwargs]. apply dict_get_set_same.
  - destruct (is_not_None w0); [| now apply IH].
    destruct (isinstance_SymbolBase w0); [| discriminate]. now apply IH.
Qed.


(** X11.  In the keyword-only convention a declared node parameter that
    holds a node is handed on as a keyword node under its declared name. *)
Theorem keyword_node_parameter_is_forwarded :
  forall (args : list value) (kws : list (string * value)) (f : frame)
         (w w' : world) (v : value) (x : string) (n : nat),
    opt_truthy (arr_name c) = false ->
    bind_arguments (full_signature c) args kws = inr f ->
    In x (ndarg_names c) ->
    dict_get x
      (locals_after_loop (locals f)
         (dict_update (kwargs_in f)
            (attr_items (merged_attrs (attr_scope w) (explicit_attr c f)))))
    = Some (VSym n) ->
    generated_call py_str numpy_dtype_name func_name handle key_var_num_args
                   c args kws w = (inr v, w') ->
    exists r,
      created w' = created w ++ [r]
      /\ dict_get x (req_kwargs r) = Some (VSym n).
Proof.
  intros args kws f w w' v x n Hkw Hb Hin Hx Hcall.
  destruct (keyword_call_inv py_str numpy_dtype_name func_name handle
              key_var_num_args c args kws w w' v Hkw Hcall)
    as (f' & r & nm & name' & counters & Hb' & Hp & _ & ->).
  unfold call_signature in Hb'. rewrite Hkw, Hb in Hb'. injection Hb' as <-.
  destruct (keyword_plan_inv py_str numpy_dtype_name c _ _ _ _ Hp)
    as (attr & r1 & r2 & Ha & _ & H1 & H2 & H3 & _).
  unfold explicit_attr in Hx. rewrite Hkw, (popped_get _ _ _ Ha) in Hx.
  eexists. split; [reflexivity |]. cbn [keyword_request req_kwargs].
  apply dtype_param_appends in H3. destruct H3 as (dt & _ & _ & -> & _).
  apply scalar_params_appends in H2. destruct H2 as (_ & _ & ->).
  exact (node_params_sets_node _ _ x (VSym n) Hin Hx eq_refl _ _ H1).
Qed.


Lemma node_params_other (names : list string) (env : dict value)
      (k : string) :
  ~ In k names ->
  forall r r',
    node_params py_str names env r = inr r' ->
    dict_get k (sym_kwargs r') = dict_get k (sym_kwargs r).
Proof.
  induction names as [| y rest IH]; intros Hn r r'; simpl.
  - now intros [= <-].
  - simpl in Hn. unfold rbind, read_local.
    destruct (dict_get y env) as [w0 |]; [| discriminate].
    destruct (is_not_None w0); [| apply IH; tauto].
    destruct (isinstance_SymbolBase w0); [| discriminate].
    intro H. rewrite (IH ltac:(tauto) _ _ H).
    cbn [set_sym_kwarg sym_kwargs]. apply dict_get_set_other. tauto.
Qed.

(** X15.  In the keyword-only convention a keyword that is not a declared
    parameter and whose value is a node is handed on as a keyword node
    under its own name: the open keyword tail accepts node inputs the
    declared parameter list does not name. *)
Theorem keyword_tail_node_is_forwarded :
  forall (args : list value) (kws : list (string * value)) (f : frame)
         (w w' : world) (v : value) (k : string) (n : nat),
    opt_truthy (arr_name c) = false ->
    bind_arguments (full_signature c) args kws = inr f ->
    NoDup (dict_keys (attr_scope w)) ->
    dict_get k (kwargs_in f) = Some (VSym n) ->
    dict_get k (merged_attrs (attr_scope w) (explicit_attr c f)) = None ->
    ~ In k (ndarg_names c) ->
    generated_call py_str numpy_dtype_name func_name handle key_var_num_args
                   c args kws w = (inr v, w') ->
    exists r,
      created w' = created w ++ [r]
      /\ dict_get k (req_kwargs r) = Some (VSym n).
Proof.
  intros args kws f w w' v k n Hkw Hb Hscope Hk Hattr Hnd Hcall.
  destruct (keyword_call_inv py_str numpy_dtype_name func_name handle
              key_var_num_args c args kws w w' v Hkw Hcall)
    as (f' & r & nm & name' & counters & Hb' & Hp & _ & ->).
  unfold call_signature in Hb'. rewrite Hkw, Hb in Hb'. injection Hb' as <-.
  destruct (keyword_plan_inv py_str numpy_dtype_name c _ _ _ _ Hp)
    as (attr & r1 & r2 & Ha & _ & H1 & H2 & H3 & _).
  unfold explicit_attr in Hattr. rewrite Hkw, (popped_get _ _ _ Ha) in Hattr.
  set (K := dict_update (kwargs_in f)
              (attr_items (merged_attrs (attr_scope w) attr))) in *.
  assert (HndK : NoDup (dict_keys K)).
  { apply dict_update_NoDup. exact (bind_arguments_NoDup _ _ _ _ Hb). }
  assert (HK : dict_get k K = Some (VSym n)).
  { unfold K. rewrite dict_get_update.
    - now rewrite attr_items_get, Hattr.
    - rewrite attr_items_keys. now apply merged_attrs_NoDup. }
  eexists. split; [reflexivity |]. cbn [keyword_request req_kwargs].
  apply dtype_param_appends in H3. destruct H3 as (dt & _ & _ & -> & _).
  apply scalar_params_appends in H2. destruct H2 as (_ & _ & ->).
  rewrite (node_params_other _ _ k Hnd _ _ H1).
  apply route_kwargs_sym_get; auto. now apply dict_get_In.
Qed.

End KeywordMore.

(** ** Choosing the binding *)

Section SelectBindingFacts.

Variable py_int : string -> exn + Z.
Variable importable : binding -> bool.

(** X13.  Whatever the environment says, a binding that is selected was
    importable, a Cython binding is only ever the one of the running
    Python version, and with [MXNET_ENABLE_CYTHON] at 0 nothing but the
    ctypes binding is selected. *)
Theorem select_binding_sound :
  forall (enable enforce : option string) (py3 : bool) (b : binding),
    select_binding py_int importable enable enforce py3 = inr b ->
    importable b = true
    /\ (b = Cy3 -> py3 = true)
    /\ (b = Cy2 -> py3 = false)
    /\ (env_int py_int enable 1 = inr 0%Z -> b = Ctypes).
Proof.
  intros enable enforce py3 b. unfold select_binding.
  destruct (env_int py_int enable 1) as [e | n]; [discriminate |].
  destruct (n =? 0)%Z eqn:En.
  - apply Z.eqb_eq in En. subst n.
    destruct (importable Ctypes) eqn:Hc.
    + intros [= <-]. repeat split; auto; discriminate.
    + destruct (env_int py_int enforce 0) as [e | m]; [discriminate |].
      destruct (negb (m =? 0)%Z); discriminate.
  - apply Z.eqb_neq in En.
    assert (Hfall :
              match env_int py_int enforce 0 with
              | inl e => inl (PropagatedError e)
              | inr m =>
                  if negb (m =? 0)%Z then inl (ImportError enforce_cython_msg)
                  else if importable Ctypes then inr Ctypes
                       else inl (ImportError "No module named _ctypes.symbol")
              end = inr b ->
              importable b = true /\ b = Ctypes).
    { destruct (env_int py_int enforce 0) as [e | m]; [discriminate |].
      destruct (negb (m =? 0)%Z); [discriminate |].
      destruct (importable Ctypes) eqn:Hc; [| discriminate].
      intros [= <-]. now split. }
    destruct py3.
    + destruct (importable Cy3) eqn:H3.
      * intros [= <-]. repeat split; auto; try discriminate.
        intros [= ->]. congruence.
      * intro H. destruct (Hfall H) as [Hi ->].
        repeat split; auto; discriminate.
    + destruct (importable Cy2) eqn:H2.
      * intros [= <-]. repeat split; auto; try discriminate.
        intros [= ->]. congruence.
      * intro H. destruct (Hfall H) as [Hi ->].
        repeat split; auto; discriminate.
Qed.

(** X14.  When [MXNET_ENFORCE_CYTHON] is unset or 0 and the ctypes binding
    can be imported, the block never ends in an [ImportError]: for every
    value of [MXNET_ENABLE_CYTHON] that [int] accepts, every Python version
    and every state of the Cython modules a binding is selected.  With
    enforcement on, a missing Cython module is an [ImportError] even
    though ctypes could be imported. *)
Theorem select_binding_falls_back_unless_enforced :
  forall (enable enforce : option string) (py3 : bool) (n : Z),
    env_int py_int enable 1 = inr n ->
    (env_int py_int enforce 0 = inr 0%Z ->
     importable Ctypes = true ->
     exists b, select_binding py_int importable enable enforce py3 = inr b)
    /\ (forall m,
           env_int py_int enforce 0 = inr m -> m <> 0%Z -> n <> 0%Z ->
           importable (if py3 then Cy3 else Cy2) = false ->
           select_binding py_int importable enable enforce py3
           = inl (ImportError enforce_cython_msg)).
Proof.
  intros enable enforce py3 n Hn. unfold select_binding. rewrite Hn. split.
  - intros He Hc. rewrite He, Hc. cbn.
    destruct (importable (if (n =? 0)%Z then Ctypes
                          else if py3 then Cy3 else Cy2));
      eexists; reflexivity.
  - intros m He Hm Hn0 Hcy. rewrite He.
    apply Z.eqb_neq in Hm, Hn0. rewrite Hn0, Hm.
    destruct py3; rewrite Hcy; reflexivity.
Qed.

End SelectBindingFacts.

(** ** The further properties at concrete inputs *)

Lemma classify_sorts_arguments_witness :
  classify (info_args Cast_info) = inr Cast_sig
  /\ ndarg_names Cast_sig
     = map fst (filter is_optional_node (info_args Cast_info))
  /\ kwarg_names Cast_sig
     = map fst (filter is_plain_scalar (info_args Cast_info))
  /\ dtype_name Cast_sig
     = (if existsb is_dtype_scalar (info_args Cast_info) then Some "dtype"
        else None).
Proof.
  split; [reflexivity |].
  exact (classify_sorts_arguments (info_args Cast_info) Cast_sig eq_refl).
Defined.

Lemma parameter_list_nodes_first_witness :
  let args := [("axis", "int"); ("data", "Symbol"); ("dtype", "string")] in
  exists c,
    classify args = inr c
    /\ param_names (full_signature c)
       = ["data"; "axis"; "dtype"; "name"; "attr"; "out"]
    /\ List.length (ndsignature c) + List.length (signature c) = 3.
Proof.
  intro args.
  destruct (classify args) as [e | c] eqn:Hc; [discriminate |].
  exists c. split; [reflexivity |].
  exact (parameter_list_nodes_first args c Hc).
Defined.

Lemma convention_follows_array_argument_witness :
  Forall (fun a : string * string => fst a <> "") (info_args Concat_info)
  /\ classify (info_args Concat_info) = inr Concat_sig
  /\ opt_truthy (arr_name Concat_sig)
     = existsb is_variadic (info_args Concat_info).
Proof.
  assert (H : Forall (fun a : string * string => fst a <> "")
                     (info_args Concat_info))
    by (repeat constructor; discriminate).
  split; [exact H |]. split; [reflexivity |].
  exact (proj2 (convention_follows_array_argument
                  (info_args Concat_info) Concat_sig H eq_refl)).
Defined.

Lemma request_nodes_are_nodes_witness :
  exists v w' r,
    sample_call Concat_info Concat_sig [VSym 0; VSym 1]
                [("dim", VInt 1); ("extra", VSym 2)] world_init = (inr v, w')
    /\ created w' = created world_init ++ [r]
    /\ Forall (fun x => isinstance_SymbolBase x = true)
              (map snd (req_kwargs r))
    /\ (forall sa, req_args r = Some sa ->
                   Forall (fun x => isinstance_SymbolBase x = true) sa).
Proof.
  destruct (sample_call Concat_info Concat_sig [VSym 0; VSym 1]
                        [("dim", VInt 1); ("extra", VSym 2)] world_init)
    as [[e | v] w'] eqn:Hcall; [discriminate |].
  destruct (request_nodes_are_nodes
              sample_str sample_dtype_name "Concat" 12 "num_args" Concat_sig
              _ _ _ _ _ Hcall) as (r & H).
  exists v, w', r. split; [reflexivity | exact H].
Defined.


Lemma variadic_consumes_name_and_out_witness :
  exists v w' r,
    sample_call Concat_info Concat_sig [VSym 0]
                [("name", VStr "joined"); ("out", VStr "there")]
                (World [("out", "scope")] [] [] accepting) = (inr v, w')
    /\ created w' = [] ++ [r]
    /\ ~ In "out" (req_keys r)
    /\ ~ In "out" (dict_keys (req_kwargs r)).
Proof.
  destruct (sample_call Concat_info Concat_sig [VSym 0]
                        [("name", VStr "joined"); ("out", VStr "there")]
                        (World [("out", "scope")] [] [] accepting))
    as [[e | v] w'] eqn:Hcall; [discriminate |].
  destruct (variadic_consumes_name_and_out
              sample_str sample_dtype_name "Concat" 12 "num_args" Concat_sig
              _ _ _ _ _ "out" eq_refl ltac:(discriminate)
              (or_intror eq_refl) Hcall) as (r & H).
  exists v, w', r. split; [reflexivity | exact H].
Defined.

Lemma variadic_ignores_out_witness :
  sample_call Concat_info Concat_sig [VSym 0] [("dim", VInt 1)] world_init
  = sample_call Concat_info Concat_sig [VSym 0]
                [("out", VStr "there"); ("dim", VInt 1)] world_init.
Proof.
  unfold sample_call. apply variadic_ignores_out.
  - reflexivity.
  - discriminate.
  - repeat constructor; simpl; intuition discriminate.
  - repeat constructor; simpl; intuition discriminate.
  - reflexivity.
Defined.



Lemma keyword_node_parameter_is_forwarded_witness :
  exists v w' r,
    sample_call Add_info Add_sig [VSym 0] [("b", VSym 1)] world_init
    = (inr v, w')
    /\ created w' = created world_init ++ [r]
    /\ dict_get "b" (req_kwargs r) = Some (VSym 1).
Proof.
  destruct (sample_call Add_info Add_sig [VSym 0] [("b", VSym 1)] world_init)
    as [[e | v] w'] eqn:Hcall; [discriminate |].
  destruct (keyword_node_parameter_is_forwarded
              sample_str sample_dtype_name "Add" 11 "" Add_sig
              [VSym 0] [("b", VSym 1)]
              (Frame [("a", VSym 0); ("b", VSym 1); ("name", VNone);
                      ("attr", VNone); ("out", VNone)] [] [])
              world_init w' v "b" 1) as (r & H).
  - reflexivity.
  - reflexivity.
  - right; left; reflexivity.
  - reflexivity.
  - exact Hcall.
  - exists v, w', r. split; [reflexivity | exact H].
Defined.


Lemma select_binding_sound_witness :
  let importable := fun b => match b with Cy3 => true | _ => false end in
  select_binding sample_int importable (Some "1") None true = inr Cy3
  /\ importable Cy3 = true.
Proof.
  intro importable. split; [reflexivity |].
  exact (proj1 (select_binding_sound sample_int importable
                  (Some "1") None true Cy3 eq_refl)).
Defined.

Lemma select_binding_falls_back_unless_enforced_witness :
  let importable := fun b => match b with Ctypes => true | _ => false end in
  (exists b, select_binding sample_int importable None None true = inr b)
  /\ select_binding sample_int importable None (Some "1") true
     = inl (ImportError enforce_cython_msg).
Proof.
  intro importable. split.
  - exact (proj1 (select_binding_falls_back_unless_enforced
                    sample_int importable None None true 1 eq_refl)
                 eq_refl eq_refl).
  - exact (proj2 (select_binding_falls_back_unless_enforced
                    sample_int importable None (Some "1") true 1 eq_refl)
                 1%Z eq_refl ltac:(discriminate) ltac:(discriminate) eq_refl).
Defined.

Lemma keyword_tail_node_is_forwarded_witness :
  exists v w' r,
    sample_call Add_info Add_sig [VSym 0; VSym 1] [("bias", VSym 2)] world_init
    = (inr v, w')
    /\ created w' = created world_init ++ [r]
    /\ dict_get "bias" (req_kwargs r) = Some (VSym 2).
Proof.
  destruct (sample_call Add_info Add_sig [VSym 0; VSym 1] [("bias", VSym 2)]
                        world_init)
    as [[e | v] w'] eqn:Hcall; [discriminate |].
  destruct (keyword_tail_node_is_forwarded
              sample_str sample_dtype_name "Add" 11 "" Add_sig
              [VSym 0; VSym 1] [("bias", VSym 2)]
              (Frame [("a", VSym 0); ("b", VSym 1); ("name", VNone);
                      ("attr", VNone); ("out", VNone)] [] [("bias", VSym 2)])
              world_init w' v "bias" 2) as (r & H).
  - reflexivity.
  - reflexivity.
  - constructor.
  - reflexivity.
  - reflexivity.
  - simpl. intros [H | [H | []]]; discriminate.
  - exact Hcall.
  - exists v, w', r. split; [reflexivity | exact H].
Defined.
